(** * easy-blob: the metadata-and-file consistency layer

    A shallow embedding of [src/blob-storage.ts] (class [BlobStorage]: the
    multer configuration and the four route handlers) and of
    [src/database.ts] (class [Database]) together with the properties the
    specification states about them.

    The two storage substrates are explicit: the table [blob_metadata] is a
    list of rows in rowid order plus the AUTOINCREMENT counter, the storage
    directory is a finite map from paths to file contents.  Handlers are
    computations in a state monad over that world; every call into SQLite or
    the file system is appended to a trace, so that orderings ("the file is
    unlinked before the row is deleted", "nothing is looked up") are
    statements about the trace.  A handler runs from its first call to its
    answer without another request in between. *)

From Stdlib Require Import ZArith List Ascii String Lia.
From Stdlib.Strings Require Import Byte.
From stdpp Require Import base tactics option list strings pretty gmap sorting.

Local Open Scope string_scope.
Local Open Scope list_scope.
Local Open Scope Z_scope.

(** ** Strings and characters *)

Definition chars (s : string) : list ascii := list_ascii_of_string s.
Definition of_chars (l : list ascii) : string := string_of_list_ascii l.

Definition is_slash (c : ascii) : bool := bool_decide (c = "/"%char).
Definition is_dot (c : ascii) : bool := bool_decide (c = "."%char).

(** [span p l] is the longest prefix of [l] whose elements satisfy [p],
    and the rest. *)
Fixpoint span {A} (p : A → bool) (l : list A) : list A * list A :=
  match l with
  | [] => ([], [])
  | x :: l' =>
      if p x then let '(a, b) := span p l' in (x :: a, b) else ([], l)
  end.

(** ** The JavaScript library functions the handlers call *)

Module Js.

(** A JavaScript number as the handlers meet it: the result of [parseInt]
    or a row id.  [Num z] is the mathematical integer: it is the Number
    itself for every [z] below 2^53 in magnitude, which covers every id
    the table can hold.  Above that the real Number is [z] rounded to a
    double, and Infinity from about 1.8e308 on (an id of 310 digits is
    answered 400 by the [Number.isInteger] test); the model does not
    follow the rounding, and a statement that would depend on it is made
    for numbers below 2^53 only. *)
Inductive Number := NaN | Num (z : Z).

Definition isNaN (n : Number) : bool :=
  match n with NaN => true | Num _ => false end.

Definition Number_isInteger (n : Number) : bool :=
  match n with NaN => false | Num _ => true end.

(** [n <= 0]; every comparison with NaN is false. *)
Definition le0 (n : Number) : bool :=
  match n with NaN => false | Num z => z <=? 0 end.

(** [String(n)] for an integer [n] (what [Date.now() + ext] and the
    template literal [`/blob/${id}`] produce). *)
Definition Number_toString (z : Z) : string := pretty z.

(** The characters [parseInt] skips in front (StrWhiteSpaceChar): white
    space and line terminators.  A string holds the UTF-8 bytes of the
    text, so that these are characters of one, two or three bytes:
    TAB, LF, VT, FF, CR and SP; U+00A0; U+1680, U+2000 to U+200A, U+2028,
    U+2029, U+202F, U+205F, U+3000 and U+FEFF. *)
Definition is_white (c : ascii) : bool :=
  let n := N_of_ascii c in
  ((9 <=? n) && (n <=? 13))%N || (n =? 32)%N.

Definition is_white2 (a b : ascii) : bool :=
  if (N_of_ascii a =? 194)%N then (N_of_ascii b =? 160)%N else false.

Definition is_white3 (a b c : ascii) : bool :=
  let y := N_of_ascii b in
  let z := N_of_ascii c in
  if (N_of_ascii a =? 225)%N then (y =? 154)%N && (z =? 128)%N
  else if (N_of_ascii a =? 226)%N then
    ((y =? 128)%N
     && (((128 <=? z) && (z <=? 138))%N
         || (z =? 168)%N || (z =? 169)%N || (z =? 175)%N))
    || ((y =? 129)%N && (z =? 159)%N)
  else if (N_of_ascii a =? 227)%N then (y =? 128)%N && (z =? 128)%N
  else if (N_of_ascii a =? 239)%N then (y =? 187)%N && (z =? 191)%N
  else false.

Fixpoint trim_start (s : string) : string :=
  match s with
  | String a s1 =>
      if is_white a then trim_start s1
      else
        match s1 with
        | String b s2 =>
            if is_white2 a b then trim_start s2
            else
              match s2 with
              | String c s3 => if is_white3 a b c then trim_start s3 else s
              | EmptyString => s
              end
        | EmptyString => s
        end
  | EmptyString => s
  end.

Definition is_decimal (c : ascii) : bool :=
  let n := N_of_ascii c in ((48 <=? n) && (n <=? 57))%N.

(** Value of [c] as a digit of the given radix (10 or 16). *)
Definition digit_value (radix : N) (c : ascii) : option N :=
  let n := N_of_ascii c in
  let v :=
    if is_decimal c then Some (n - 48)%N
    else if ((97 <=? n) && (n <=? 102))%N then Some (n - 87)%N
    else if ((65 <=? n) && (n <=? 70))%N then Some (n - 55)%N
    else None in
  match v with
  | Some d => if (d <? radix)%N then Some d else None
  | None => None
  end.

(** The longest prefix of digits, read left to right; [None] when the
    prefix is empty. *)
Fixpoint parse_digits (radix : N) (acc : option N) (s : string) : option N :=
  match s with
  | String c s' =>
      match digit_value radix c with
      | Some d => parse_digits radix (Some (radix * default 0%N acc + d)%N) s'
      | None => acc
      end
  | EmptyString => acc
  end.

(** [parseInt(s)] with no radix argument: leading white space, an
    optional sign, an optional [0x]/[0X] prefix, then the longest prefix
    of digits; anything after it is ignored.  No digit gives NaN. *)
Definition parseInt (s : string) : Number :=
  let s := trim_start s in
  let '(neg, s) :=
    match s with
    | String c s' =>
        if bool_decide (c = "-"%char) then (true, s')
        else if bool_decide (c = "+"%char) then (false, s')
        else (false, s)
    | EmptyString => (false, s)
    end in
  let '(radix, s) :=
    match s with
    | String c (String x s') =>
        if bool_decide (c = "0"%char ∧ (x = "x"%char ∨ x = "X"%char))
        then (16%N, s') else (10%N, s)
    | _ => (10%N, s)
    end in
  match parse_digits radix None s with
  | None => NaN
  | Some n => Num (if neg : bool then - Z.of_N n else Z.of_N n)
  end.

(** [path.extname] (POSIX flavour): trailing separators are skipped, the
    last component is taken, and the result runs from its last dot to its
    end; it is empty when there is no dot, when the only dot is the first
    character of the component, and for the component [..]. *)
Definition extname (p : string) : string :=
  let r := snd (span is_slash (rev (chars p))) in
  let base := fst (span (λ c, negb (is_slash c)) r) in
  let '(ext, rest) := span (λ c, negb (is_dot c)) base in
  match rest with
  | [] => ""
  | _ :: [] => ""
  | _ :: before =>
      if bool_decide (ext = [] ∧ before = ["."%char]) then ""
      else of_chars (rev (ext ++ ["."%char]))
  end.

(** The components of a path string, split at [/]. *)
Fixpoint segments (s : string) : list string :=
  match s with
  | EmptyString => [""]
  | String c s' =>
      if is_slash c then "" :: segments s'
      else match segments s' with
           | seg :: rest => String c seg :: rest
           | [] => [String c ""]
           end
  end.

(** One component applied to a resolved directory: empty and [.] are
    dropped, [..] goes up (and stays at the root), anything else goes down. *)
Definition enter (dir : list string) (seg : string) : list string :=
  if bool_decide (seg = "" ∨ seg = ".") then dir
  else if bool_decide (seg = "..") then removelast dir
  else dir ++ [seg].

(** [path.join(dir, name)] for a resolved absolute [dir], given by its
    components. *)
Definition path_join (dir : list string) (name : string) : list string :=
  fold_left enter (segments name) dir.

(** [n] in decimal, left-padded with zeros to [width] characters. *)
Definition pad (width : nat) (n : Z) : string :=
  let s := pretty (Z.to_N n) in
  of_chars (replicate (width - String.length s) "0"%char) +:+ s.

(** Days since 1970-01-01 to (year, month, day) of the proleptic
    Gregorian calendar. *)
Definition civil_from_days (days : Z) : Z * Z * Z :=
  let z := days + 719468 in
  let era := z / 146097 in
  let doe := z - era * 146097 in
  let yoe := (doe - doe / 1460 + doe / 36524 - doe / 146096) / 365 in
  let doy := doe - (365 * yoe + yoe / 4 - yoe / 100) in
  let mp := (5 * doy + 2) / 153 in
  let d := doy - (153 * mp + 2) / 5 + 1 in
  let m := if mp <? 10 then mp + 3 else mp - 9 in
  let y := yoe + era * 400 + (if m <=? 2 then 1 else 0) in
  (y, m, d).

(** [new Date(t).toISOString()] for [t] milliseconds since the epoch:
    [YYYY-MM-DDTHH:mm:ss.sssZ], with the six-digit signed year outside
    0..9999. *)
Definition toISOString (t : Z) : string :=
  let '(y, m, d) := civil_from_days (t / 86400000) in
  let ms := t mod 86400000 in
  let year :=
    if (0 <=? y) && (y <=? 9999) then pad 4 y
    else (if y <? 0 then "-" else "+") +:+ pad 6 (Z.abs y) in
  year +:+ "-" +:+ pad 2 m +:+ "-" +:+ pad 2 d +:+ "T" +:+
  pad 2 (ms / 3600000) +:+ ":" +:+ pad 2 (ms / 60000 mod 60) +:+ ":" +:+
  pad 2 (ms / 1000 mod 60) +:+ "." +:+ pad 3 (ms mod 1000) +:+ "Z".

(** [Array.prototype.includes] on strings. *)
Definition includes (l : list string) (s : string) : bool :=
  bool_decide (s ∈ l).

End Js.

(** ** The world: table [blob_metadata], storage directory, call trace *)

(** [interface BlobMetadata] of [database.ts]: one row of [blob_metadata]. *)
Record BlobMetadata := {
  id : Z;
  original_name : string;
  mime_type : string;
  path : string;
  upload_timestamp : string
}.

(** A JavaScript [Error] as the callbacks receive it.  Only multer's own
    errors carry a [code] the handlers look at. *)
Record Error := { code : option string; message : string }.

Inductive Result (A : Type) := Ok (a : A) | Err (e : Error).
Arguments Ok {A} a.
Arguments Err {A} e.

(** The calls that can fail for reasons outside the model (disk full,
    permissions, a locked database, ...). *)
Inductive Op :=
  | OpInsert | OpGet | OpAll | OpDelete
  | OpWrite | OpAccess | OpSendFile | OpUnlink.

#[global] Instance Op_eq_dec : EqDecision Op.
Proof. solve_decision. Defined.

(** What the surroundings give one request: the two clock readings of an
    upload ([Date.now()] in the filename callback, [new Date()] in
    [insertBlob]); for each kind of call the message of the error it
    raises, if it does; and whether the multer in use counts a part of
    exactly [limits.fileSize] bytes as over the limit, a comparison that
    is made inside multer and that this code does not fix. *)
Record Env := {
  date_now : Z;
  new_date : Z;
  fault : Op → option string;
  at_limit_is_too_large : bool
}.

(** Every call made into SQLite or the file system, oldest first. *)
Inductive Event :=
  | SqlInsert (original_name mime_type path : string)
  | SqlGet (id : Z)
  | SqlAll
  | SqlDelete (id : Z)
  | FsWrite (p : list string)
  | FsAccess (p : list string)
  | FsSendFile (p : list string)
  | FsUnlink (p : list string).

Record World := {
  rows : list BlobMetadata;              (* blob_metadata, in rowid order *)
  seq : Z;                               (* sqlite_sequence: largest rowid ever used *)
  files : gmap (list string) (list byte);  (* regular files, by resolved path *)
  trace : list Event
}.

Definition set_rows (r : list BlobMetadata) (s : Z) (w : World) : World :=
  {| rows := r; seq := s; files := files w; trace := trace w |}.
Definition set_files (f : gmap (list string) (list byte)) (w : World) : World :=
  {| rows := rows w; seq := seq w; files := f; trace := trace w |}.
Definition add_event (e : Event) (w : World) : World :=
  {| rows := rows w; seq := seq w; files := files w; trace := trace w ++ [e] |}.

(** A fresh service: empty table, empty storage directory. *)
Definition init : World :=
  {| rows := []; seq := 0; files := ∅; trace := [] |}.

(** ** Callback chains as a state monad *)

Definition M (A : Type) : Type := World → A * World.

#[global] Instance M_ret : MRet M := λ A a w, (a, w).
#[global] Instance M_bind : MBind M :=
  λ A B f m w, let '(a, w') := m w in f a w'.

Definition gets {A} (f : World → A) : M A := λ w, (f w, w).
Definition modify (f : World → World) : M unit := λ w, (tt, f w).
Definition log (e : Event) : M unit := modify (add_event e).

Definition system_error (msg : string) : Error :=
  {| code := None; message := msg |}.

(** ** [class Database] *)

Module Database.

Definition max_rowid (r : list BlobMetadata) : Z :=
  foldr (λ row m, Z.max (id row) m) 0 r.

(** INTEGER PRIMARY KEY AUTOINCREMENT: one more than the largest rowid
    that ever existed in the table. *)
Definition next_rowid (w : World) : Z :=
  1 + Z.max (seq w) (max_rowid (rows w)).

(** [insertBlob(originalName, mimeType, filePath, callback)]: the
    callback receives the error or [this.lastID]. *)
Definition insertBlob (env : Env) (originalName mimeType filePath : string)
  : M (Result Z) :=
  log (SqlInsert originalName mimeType filePath);;
  match fault env OpInsert with
  | Some msg => mret (Err (system_error msg))
  | None =>
      lastID ← gets next_rowid;
      r ← gets rows;
      modify (set_rows
        (r ++ [{| id := lastID; original_name := originalName;
                  mime_type := mimeType; path := filePath;
                  upload_timestamp := Js.toISOString (new_date env) |}])
        lastID);;
      mret (Ok lastID)
  end.

(** [SELECT * FROM blob_metadata WHERE id = ?] *)
Definition select_by_id (i : Z) (r : list BlobMetadata) : option BlobMetadata :=
  List.find (λ row, bool_decide (id row = i)) r.

Definition getBlob (env : Env) (i : Z) : M (Result (option BlobMetadata)) :=
  log (SqlGet i);;
  match fault env OpGet with
  | Some msg => mret (Err (system_error msg))
  | None => r ← gets rows; mret (Ok (select_by_id i r))
  end.

(** ORDER BY upload_timestamp DESC: the column is TEXT, compared byte by
    byte; rows with equal timestamps keep their rowid order. *)
Definition newer_first (a b : BlobMetadata) : Prop :=
  String.le (upload_timestamp b) (upload_timestamp a).

#[global] Instance newer_first_dec : RelDecision newer_first.
Proof. intros a b. unfold newer_first. apply _. Defined.

Definition getAllBlobs (env : Env) : M (Result (list BlobMetadata)) :=
  log SqlAll;;
  match fault env OpAll with
  | Some msg => mret (Err (system_error msg))
  | None => r ← gets rows; mret (Ok (merge_sort newer_first r))
  end.

(** [DELETE FROM blob_metadata WHERE id = ?]: the callback receives
    [this.changes > 0]. *)
Definition deleteBlob (env : Env) (i : Z) : M (Result bool) :=
  log (SqlDelete i);;
  match fault env OpDelete with
  | Some msg => mret (Err (system_error msg))
  | None =>
      r ← gets rows;
      s ← gets seq;
      let kept := List.filter (λ row, negb (bool_decide (id row = i))) r in
      let changes := (length r - length kept)%nat in
      modify (set_rows kept s);;
      mret (Ok (0 <? changes)%nat)
  end.

End Database.

(** ** The file system calls *)

Module Fs.

(** [fs.access(p, F_OK | R_OK, cb)] *)
Definition access (env : Env) (p : list string) : M (Result unit) :=
  log (FsAccess p);;
  match fault env OpAccess with
  | Some msg => mret (Err (system_error msg))
  | None =>
      f ← gets files;
      mret (if f !! p is Some _ then Ok tt
            else Err (system_error "ENOENT: no such file or directory"))
  end.

(** [fs.unlink(p, cb)]: fails on a missing file. *)
Definition unlink (env : Env) (p : list string) : M (Result unit) :=
  log (FsUnlink p);;
  match fault env OpUnlink with
  | Some msg => mret (Err (system_error msg))
  | None =>
      f ← gets files;
      if f !! p is Some _ then modify (set_files (delete p f));; mret (Ok tt)
      else mret (Err (system_error "ENOENT: no such file or directory"))
  end.

(** ASCII lower case, as the MIME lookup applies it to the extension. *)
Definition lower (c : ascii) : ascii :=
  let n := N_of_ascii c in
  if ((65 <=? n) && (n <=? 90))%N then ascii_of_N (n + 32) else c.

(** The MIME database behind [res.sendFile] (express 5), an excerpt: a
    function of the extension alone, compared without regard to case,
    with [application/octet-stream] for the rest.  The first entry is the
    one the test suite of the repository expects for [testdoc.txt]. *)
Definition mime_contentType (ext : string) : string :=
  let ext := of_chars (map lower (chars ext)) in
  if bool_decide (ext = ".txt") then "text/plain; charset=utf-8"
  else if bool_decide (ext = ".html") then "text/html; charset=utf-8"
  else if bool_decide (ext = ".css") then "text/css; charset=utf-8"
  else if bool_decide (ext = ".json") then "application/json; charset=utf-8"
  else if bool_decide (ext = ".png") then "image/png"
  else if bool_decide (ext = ".jpg") then "image/jpeg"
  else if bool_decide (ext = ".jpeg") then "image/jpeg"
  else if bool_decide (ext = ".gif") then "image/gif"
  else if bool_decide (ext = ".pdf") then "application/pdf"
  else "application/octet-stream".

(** A component that [res.sendFile] refuses: [..] or a dotfile.  The test
    is made on the components as they are written in the row. *)
Definition hidden (seg : string) : bool :=
  match seg with
  | String "." (String _ _) => true
  | _ => false
  end.

(** [res.sendFile(name, { root }, cb)]: on success the body is the file
    and Content-Type is looked up from the extension of the path sent. *)
Definition sendFile (env : Env) (root : list string) (name : string)
  : M (Result (string * list byte)) :=
  let p := Js.path_join root name in
  log (FsSendFile p);;
  if existsb hidden (Js.segments name)
  then mret (Err (system_error "Forbidden"))
  else match fault env OpSendFile with
       | Some msg => mret (Err (system_error msg))
       | None =>
           f ← gets files;
           mret (match f !! p with
                 | Some bytes => Ok (mime_contentType (Js.extname name), bytes)
                 | None => Err (system_error "ENOENT: no such file or directory")
                 end)
       end.

End Fs.

(** ** [class BlobStorage] *)

(** [interface BlobStorageOptions], defaults applied; [storageDir] is the
    resolved directory, by components. *)
Record BlobStorageOptions := {
  storageDir : list string;
  maxFileSize : Z;
  allowedMimeTypes : list string
}.

(** The file part of a multipart request, as multer sees it arrive. *)
Record Part := {
  originalname : string;
  mimetype : string;
  content : list byte
}.

(** [req.file] once the disk storage engine has handled the part. *)
Record UploadedFile := {
  file_originalname : string;
  file_mimetype : string;
  filename : string
}.

Inductive Body :=
  | ErrorResponse (error : string)
  | UploadResponse (id : Z) (message : string)
  | MessageResponse (message : string)
  | RowsResponse (rows : list BlobMetadata)
  | FileResponse (content_type : string) (bytes : list byte).

Record Response := { status : Z; body : Body }.

Module BlobStorage.

(** The [filename] callback of [multer.diskStorage]:
    [Date.now() + path.extname(file.originalname)]. *)
Definition storage_filename (env : Env) (file : Part) : string :=
  Js.Number_toString (date_now env) +:+ Js.extname (originalname file).

(** The [fileFilter] callback: [None] accepts the file. *)
Definition fileFilter (o : BlobStorageOptions) (file : Part) : option Error :=
  if (0 <? length (allowedMimeTypes o))%nat
     && negb (Js.includes (allowedMimeTypes o) (mimetype file))
  then Some (system_error ("File type " +:+ mimetype file +:+ " not allowed"))
  else None.

Definition LIMIT_FILE_SIZE : Error :=
  {| code := Some "LIMIT_FILE_SIZE"; message := "File too large" |}.

(** Whether multer raises LIMIT_FILE_SIZE for the part.  The code passes
    [limits.fileSize = maxFileSize] and leaves the counting to multer: a
    part larger than that is over the limit (the test suite sends 56
    bytes against 10), a smaller one is not, and for a part of exactly
    that many bytes the answer is the library's, taken from [env]. *)
Definition over_limit (o : BlobStorageOptions) (env : Env) (file : Part)
  : bool :=
  let size := Z.of_nat (length (content file)) in
  (maxFileSize o <? size)
  || ((size =? maxFileSize o) && at_limit_is_too_large env).

(** [this.upload.single('blob')]: multer asks [fileFilter] when the part
    starts, then streams the part to [path.join(destination, filename)];
    a part that is over the limit is cut short and its file removed
    again.  A write error is taken to occur when the file is opened. *)
Definition upload_single (o : BlobStorageOptions) (env : Env)
    (part : option Part) : M (Result (option UploadedFile)) :=
  match part with
  | None => mret (Ok None)
  | Some file =>
      match fileFilter o file with
      | Some e => mret (Err e)
      | None =>
          let name := storage_filename env file in
          let p := Js.path_join (storageDir o) name in
          log (FsWrite p);;
          match fault env OpWrite with
          | Some msg => mret (Err (system_error msg))
          | None =>
              f ← gets files;
              if over_limit o env file then
                log (FsUnlink p);;
                modify (set_files (delete p f));;
                mret (Err LIMIT_FILE_SIZE)
              else
                modify (set_files (<[p := content file]> f));;
                mret (Ok (Some {| file_originalname := originalname file;
                                  file_mimetype := mimetype file;
                                  filename := name |}))
          end
      end
  end.

Definition json (st : Z) (b : Body) : M Response :=
  mret {| status := st; body := b |}.

(** POST /upload *)
Definition post_upload (o : BlobStorageOptions) (env : Env)
    (part : option Part) : M Response :=
  r ← upload_single o env part;
  match r with
  | Err err =>
      if bool_decide (code err = Some "LIMIT_FILE_SIZE")
      then json 400 (ErrorResponse "File too large")
      else json 400 (ErrorResponse (message err))
  | Ok None => json 400 (ErrorResponse "No file uploaded")
  | Ok (Some file) =>
      r ← Database.insertBlob env (file_originalname file)
            (file_mimetype file) (filename file);
      match r with
      | Err _ => json 500 (ErrorResponse "Server error")
      | Ok i => json 200 (UploadResponse i "File uploaded successfully")
      end
  end.

(** GET /files *)
Definition get_files (env : Env) : M Response :=
  r ← Database.getAllBlobs env;
  match r with
  | Err _ => json 500 (ErrorResponse "Server error")
  | Ok rs => json 200 (RowsResponse rs)
  end.

(** [isNaN(blobId) || blobId <= 0 || !Number.isInteger(blobId)] *)
Definition invalid_id (blobId : Js.Number) : bool :=
  Js.isNaN blobId || Js.le0 blobId || negb (Js.Number_isInteger blobId).

(** GET /blob/:id *)
Definition get_blob (o : BlobStorageOptions) (env : Env) (param : string)
  : M Response :=
  let blobId := Js.parseInt param in
  if invalid_id blobId then json 400 (ErrorResponse "Invalid blob ID")
  else
    let i := if blobId is Js.Num z then z else 0 in
    r ← Database.getBlob env i;
    match r with
    | Err _ => json 500 (ErrorResponse "Server error")
    | Ok None => json 404 (ErrorResponse "Blob not found")
    | Ok (Some row) =>
        let filePath := Js.path_join (storageDir o) (path row) in
        a ← Fs.access env filePath;
        match a with
        | Err _ => json 404 (ErrorResponse "File not found or inaccessible")
        | Ok _ =>
            s ← Fs.sendFile env (storageDir o) (path row);
            match s with
            | Err _ => json 500 (ErrorResponse "Error serving the file")
            | Ok (ty, bytes) => json 200 (FileResponse ty bytes)
            end
        end
    end.

(** DELETE /blob/:id *)
Definition delete_blob (o : BlobStorageOptions) (env : Env) (param : string)
  : M Response :=
  let blobId := Js.parseInt param in
  if invalid_id blobId then json 400 (ErrorResponse "Invalid blob ID")
  else
    let i := if blobId is Js.Num z then z else 0 in
    r ← Database.getBlob env i;
    match r with
    | Err _ => json 500 (ErrorResponse "Server error")
    | Ok None => json 404 (ErrorResponse "Blob not found")
    | Ok (Some row) =>
        let filePath := Js.path_join (storageDir o) (path row) in
        u ← Fs.unlink env filePath;
        match u with
        | Err _ => json 500 (ErrorResponse "Failed to delete physical file")
        | Ok _ =>
            d ← Database.deleteBlob env i;
            match d with
            | Err _ => json 500 (ErrorResponse "Server error")
            | Ok false => json 404 (ErrorResponse "Blob not found")
            | Ok true => json 200 (MessageResponse "File deleted successfully")
            end
        end
    end.

End BlobStorage.

(** ** The outcomes of the specification, as the handlers answer them *)

Definition TooLarge : Response :=
  {| status := 400; body := ErrorResponse "File too large" |}.
Definition TypeNotAllowed (mimetype : string) : Response :=
  {| status := 400;
     body := ErrorResponse ("File type " +:+ mimetype +:+ " not allowed") |}.
Definition WriteError (msg : string) : Response :=
  {| status := 400; body := ErrorResponse msg |}.
Definition StoreError : Response :=
  {| status := 500; body := ErrorResponse "Server error" |}.
Definition InvalidId : Response :=
  {| status := 400; body := ErrorResponse "Invalid blob ID" |}.
Definition NotFound : Response :=
  {| status := 404; body := ErrorResponse "Blob not found" |}.
Definition FileMissing : Response :=
  {| status := 404; body := ErrorResponse "File not found or inaccessible" |}.
Definition UnlinkError : Response :=
  {| status := 500; body := ErrorResponse "Failed to delete physical file" |}.
Definition Created (i : Z) : Response :=
  {| status := 200; body := UploadResponse i "File uploaded successfully" |}.

(** ** A running example *)

Definition no_fault : Op → option string := λ _, None.
Definition at_time (t : Z) : Env :=
  {| date_now := t; new_date := t; fault := no_fault;
     at_limit_is_too_large := false |}.
(** The same surroundings with one kind of call failing. *)
Definition failing (op : Op) (msg : string) : Env :=
  {| date_now := 1700000000000; new_date := 1700000000000;
     fault := λ x, if bool_decide (x = op) then Some msg else None;
     at_limit_is_too_large := false |}.

Definition defaults : BlobStorageOptions :=
  {| storageDir := ["srv"; "uploads"];
     maxFileSize := 10 * 1024 * 1024;
     allowedMimeTypes := [] |}.
Definition bytes_of (s : string) : list byte := list_byte_of_string s.
Definition a_txt (body : string) (ty : string) : Part :=
  {| originalname := "a.txt"; mimetype := ty; content := bytes_of body |}.

(** A stream of requests against one service. *)
Inductive Request :=
  | Upload (part : option Part)
  | ListFiles
  | Download (param : string)
  | Delete (param : string).

Definition handle (o : BlobStorageOptions) (env : Env) (rq : Request)
  : M Response :=
  match rq with
  | Upload part => BlobStorage.post_upload o env part
  | ListFiles => BlobStorage.get_files env
  | Download param => BlobStorage.get_blob o env param
  | Delete param => BlobStorage.delete_blob o env param
  end.

Fixpoint serve (o : BlobStorageOptions) (l : list (Env * Request))
  : M (list Response) :=
  match l with
  | [] => mret []
  | (env, rq) :: l' =>
      r ← handle o env rq; rs ← serve o l'; mret (r :: rs)
  end.

Definition is_delete (rq : Request) : bool :=
  match rq with Delete _ => true | _ => false end.

(** The answer of a successful upload. *)
Definition created (r : Response) : bool :=
  match body r with UploadResponse _ _ => true | _ => false end.

(** A row whose file is gone, and the same row with its file. *)
Definition orphan_row : BlobMetadata :=
  {| id := 1; original_name := "a.txt"; mime_type := "text/plain";
     path := "1700000000000.txt";
     upload_timestamp := "2023-11-14T22:13:20.000Z" |}.
Definition orphan_world : World :=
  {| rows := [orphan_row]; seq := 1; files := ∅; trace := [] |}.
Definition stored_world : World :=
  {| rows := [orphan_row]; seq := 1;
     files := {[ ["srv"; "uploads"; "1700000000000.txt"] := bytes_of "hello" ]};
     trace := [] |}.

(** A service that takes PNG images of at most ten bytes. *)
Definition png_only : BlobStorageOptions :=
  {| storageDir := ["srv"; "uploads"]; maxFileSize := 10;
     allowedMimeTypes := ["image/png"] |}.
Definition twenty_bytes (ty : string) : Part :=
  {| originalname := "a.txt"; mimetype := ty;
     content := bytes_of "12345678901234567890" |}.

(** An upload with a crafted name. *)
Definition passwd : Part :=
  {| originalname := "../../etc/passwd"; mimetype := "text/plain";
     content := bytes_of "root" |}.

(** Three uploads that succeed, one that does not, one download. *)
Definition three_uploads : list (Env * Request) :=
  [ (at_time 1700000000000, Upload (Some (a_txt "one" "text/plain")));
    (at_time 1700000000005, Download "1");
    (at_time 1700000060000, Upload (Some (a_txt "two" "text/plain")));
    (failing OpInsert "SQLITE_BUSY", Upload (Some (a_txt "lost" "text/plain")));
    (at_time 1700000120000, Upload (Some (a_txt "three" "text/plain"))) ].

(** ** Vocabulary of the string lemmas *)

(** Neither a separator nor a dot. *)
Definition plain (c : ascii) : Prop := is_slash c = false ∧ is_dot c = false.

(** An extension is empty, or a dot followed by characters that are
    neither dots nor separators. *)
Definition extension (e : string) : Prop :=
  e = "" ∨ ∃ l, e = String "." (of_chars l) ∧ Forall plain l.

(** ** Vocabulary of the properties of whole runs *)

(** The answer of a successful DELETE. *)
Definition Deleted : Response :=
  {| status := 200; body := MessageResponse "File deleted successfully" |}.

(** The id an answer hands out, if it is the answer of a successful upload. *)
Definition created_id (r : Response) : option Z :=
  match body r with UploadResponse i _ => Some i | _ => None end.

Definition created_ids (rs : list Response) : list Z := omap created_id rs.

(** The clock readings of the filename callback over a run: one for each
    request that carries a file part. *)
Definition upload_tick (er : Env * Request) : option Z :=
  match er.2 with
  | Upload (Some _) => Some (date_now er.1)
  | _ => None
  end.

Definition upload_ticks (l : list (Env * Request)) : list Z :=
  omap upload_tick l.

(** Row ids are pairwise different, positive and not above the
    AUTOINCREMENT counter. *)
Definition consistent_ids (w : World) : Prop :=
  NoDup (map id (rows w)) ∧ Forall (λ row, 0 < id row ≤ seq w) (rows w)
  ∧ 0 ≤ seq w.

(** Every file is a direct child of [dir]. *)
Definition inside (dir : list string) (w : World) : Prop :=
  ∀ p, is_Some (files w !! p) →
    ∃ name, p = dir ++ [name] ∧ Forall (λ c, is_slash c = false) (chars name).

(** Every row has its file. *)
Definition no_orphan_row (o : BlobStorageOptions) (w : World) : Prop :=
  ∀ row, row ∈ rows w →
    is_Some (files w !! Js.path_join (storageDir o) (path row)).

(** Every row names a file that exists, under a stored name that some
    upload derived at one of the clock readings [ticks], and no two rows
    name the same file. *)
Definition stored_under (o : BlobStorageOptions) (ticks : list Z) (w : World)
  : Prop :=
  NoDup (map path (rows w)) ∧
  ∀ row, row ∈ rows w →
    (∃ env file, date_now env ∈ ticks
                 ∧ path row = BlobStorage.storage_filename env file)
    ∧ is_Some (files w !! (storageDir o ++ [path row])).

(** A second blob beside the one of [stored_world]. *)
Definition second_row : BlobMetadata :=
  {| id := 2; original_name := "b.png"; mime_type := "image/png";
     path := "1700000000001.png";
     upload_timestamp := "2023-11-14T22:13:20.001Z" |}.
Definition two_blobs : World :=
  {| rows := [orphan_row; second_row]; seq := 2;
     files := {[ ["srv"; "uploads"; "1700000000000.txt"] := bytes_of "hello";
                 ["srv"; "uploads"; "1700000000001.png"] := bytes_of "image" ]};
     trace := [] |}.

(** Uploads in different milliseconds, a download and a removal. *)
Definition a_session : list (Env * Request) :=
  [ (at_time 1700000000000, Upload (Some (a_txt "one" "text/plain")));
    (at_time 1700000000001, Upload (Some (a_txt "two" "text/plain")));
    (at_time 1700000000002, Delete "1");
    (at_time 1700000000003, Upload (Some passwd));
    (at_time 1700000000004, Download "2");
    (at_time 1700000000005, Upload None) ].

(** * Properties *)

Ltac run :=
  unfold BlobStorage.get_blob, BlobStorage.delete_blob, BlobStorage.get_files,
    BlobStorage.post_upload, BlobStorage.upload_single, BlobStorage.json,
    Database.getBlob, Database.getAllBlobs, Database.deleteBlob,
    Database.insertBlob, Fs.access, Fs.unlink, Fs.sendFile,
    log, modify, gets, mbind, M_bind, mret, M_ret in *; simpl in *.

(** ** Reads are reads *)

Section ReadOnly.
Context (o : BlobStorageOptions) (env : Env).

Lemma getBlob_frame i w :
  let w' := snd (Database.getBlob env i w) in
  rows w' = rows w ∧ seq w' = seq w ∧ files w' = files w
  ∧ trace w' = trace w ++ [SqlGet i].
Proof. run. by destruct (fault env OpGet). Qed.

Lemma get_blob_frame param w :
  let w' := snd (BlobStorage.get_blob o env param w) in
  rows w' = rows w ∧ seq w' = seq w ∧ files w' = files w.
Proof.
  run. destruct (BlobStorage.invalid_id _); [done|].
  destruct (fault env OpGet); [done|]. simpl.
  destruct (Database.select_by_id _ _) as [row|]; [|done]. simpl.
  destruct (fault env OpAccess); [done|]. simpl.
  destruct (files w !! _); [|done]. simpl.
  destruct (existsb _ _); [done|].
  destruct (fault env OpSendFile); [done|]. simpl.
  by destruct (files w !! _).
Qed.

Lemma get_files_frame w :
  let w' := snd (BlobStorage.get_files env w) in
  rows w' = rows w ∧ seq w' = seq w ∧ files w' = files w.
Proof. run. by destruct (fault env OpAll). Qed.

End ReadOnly.

(** C10. [retrieve] (GET /blob/:id) and [list] (GET /files) are read-only:
    whatever the id, the prior state and the outcome, the rows of the
    metadata table, its id counter and the content of every stored file
    are afterwards what they were before. *)
Theorem C10_retrieve_and_list_are_read_only
    (o : BlobStorageOptions) (env : Env) (param : string) (w : World) :
  let w1 := snd (BlobStorage.get_blob o env param w) in
  let w2 := snd (BlobStorage.get_files env w) in
  (rows w1 = rows w ∧ seq w1 = seq w ∧ files w1 = files w) ∧
  (rows w2 = rows w ∧ seq w2 = seq w ∧ files w2 = files w).
Proof. split; [apply get_blob_frame | apply get_files_frame]. Qed.

(** ** Identifier validation *)

Lemma valid_id_num param i :
  Js.parseInt param = Js.Num i → 0 < i →
  BlobStorage.invalid_id (Js.parseInt param) = false.
Proof.
  intros -> Hi. unfold BlobStorage.invalid_id. simpl.
  rewrite orb_false_r. apply Z.leb_gt, Hi.
Qed.

(** An id that [parseInt] cannot read, or reads as zero or less, is
    answered without any call into the database or the file system. *)
Lemma invalid_id_touches_nothing o env param w :
  BlobStorage.invalid_id (Js.parseInt param) = true →
  BlobStorage.get_blob o env param w = (InvalidId, w) ∧
  BlobStorage.delete_blob o env param w = (InvalidId, w).
Proof. intros H. run. by rewrite H. Qed.

(** ** Retrieval *)

(** C7. When the row of [id] exists but its file is missing or unreadable,
    GET /blob/:id answers [FileMissing], which differs from the [NotFound]
    it answers when there is no row for [id]. *)
Theorem C7_missing_file_is_told_apart_from_missing_row
    (o : BlobStorageOptions) (env : Env) (param : string) (i : Z) (w : World) :
  Js.parseInt param = Js.Num i → 0 < i →
  fault env OpGet = None →
  let r := fst (BlobStorage.get_blob o env param w) in
  match Database.select_by_id i (rows w) with
  | None => r = NotFound
  | Some row =>
      files w !! Js.path_join (storageDir o) (path row) = None
      ∨ fault env OpAccess ≠ None →
      r = FileMissing
  end ∧ FileMissing ≠ NotFound.
Proof.
  intros Hp Hi Hget. split; [|done].
  run. rewrite (valid_id_num _ _ Hp Hi), Hp, Hget. simpl.
  destruct (Database.select_by_id i (rows w)) as [row|]; [|done]. simpl.
  intros [Hnone|Hacc].
  - destruct (fault env OpAccess); [done|]. simpl. by rewrite Hnone.
  - by destruct (fault env OpAccess).
Qed.

Lemma C7_witness :
  fst (BlobStorage.get_blob defaults (at_time 0) "1" orphan_world) = FileMissing
  ∧ fst (BlobStorage.get_blob defaults (at_time 0) "2" orphan_world) = NotFound.
Proof.
  split.
  - pose proof (C7_missing_file_is_told_apart_from_missing_row
      defaults (at_time 0) "1" 1 orphan_world eq_refl eq_refl eq_refl) as [H _].
    apply H. by left.
  - pose proof (C7_missing_file_is_told_apart_from_missing_row
      defaults (at_time 0) "2" 2 orphan_world eq_refl eq_refl eq_refl) as [H _].
    apply H.
Defined.

(** ** Removal *)

Lemma select_by_id_filter_same i r :
  Database.select_by_id i
    (List.filter (λ row, negb (bool_decide (id row = i))) r) = None.
Proof.
  unfold Database.select_by_id. induction r as [|x r IH]; simpl; [done|].
  destruct (bool_decide (id x = i)) eqn:E; simpl; [done|]. by rewrite E.
Qed.

Lemma select_by_id_filter_other i j r :
  i ≠ j →
  Database.select_by_id j
    (List.filter (λ row, negb (bool_decide (id row = i))) r)
  = Database.select_by_id j r.
Proof.
  intros Hij. unfold Database.select_by_id.
  induction r as [|x r IH]; simpl; [done|].
  destruct (bool_decide (id x = i)) eqn:E; simpl.
  - apply bool_decide_eq_true in E.
    rewrite bool_decide_eq_false_2 by congruence. done.
  - by rewrite IH.
Qed.

Lemma filter_found_is_shorter i r row :
  Database.select_by_id i r = Some row →
  (length (List.filter (λ row, negb (bool_decide (id row = i))) r)
   < length r)%nat.
Proof.
  unfold Database.select_by_id. induction r as [|x r IH]; simpl; [done|].
  destruct (bool_decide (id x = i)) eqn:E; simpl.
  - intros _.
    pose proof (filter_length_le (λ row, negb (bool_decide (id row = i))) r).
    lia.
  - intros H. specialize (IH H). lia.
Qed.

(** C5. DELETE /blob/:id on an existing row unlinks the file before it
    deletes the row: the calls it makes are the lookup, then [fs.unlink],
    and only after a successful unlink the DELETE statement.  When the
    unlink fails the answer is the error and the table is left as it was.
    When the unlink succeeds the file is gone; then a working DELETE
    statement removes the rows of that id and no other, and the answer is
    the success message, while a failing one leaves the table as it was
    and the answer is the error. *)
Theorem C5_remove_unlinks_before_deleting_the_row
    (o : BlobStorageOptions) (env : Env) (param : string) (i : Z)
    (row : BlobMetadata) (w : World) :
  Js.parseInt param = Js.Num i → 0 < i →
  fault env OpGet = None →
  Database.select_by_id i (rows w) = Some row →
  let p := Js.path_join (storageDir o) (path row) in
  let r := fst (BlobStorage.delete_blob o env param w) in
  let w' := snd (BlobStorage.delete_blob o env param w) in
  (files w !! p = None ∨ fault env OpUnlink ≠ None →
     r = UnlinkError ∧ rows w' = rows w ∧ seq w' = seq w ∧ files w' = files w
     ∧ trace w' = trace w ++ [SqlGet i; FsUnlink p]) ∧
  (is_Some (files w !! p) → fault env OpUnlink = None →
     files w' = delete p (files w)
     ∧ trace w' = trace w ++ [SqlGet i; FsUnlink p; SqlDelete i]
     ∧ seq w' = seq w
     ∧ (fault env OpDelete = None →
          r = Deleted
          ∧ rows w'
            = List.filter (λ row, negb (bool_decide (id row = i))) (rows w)
          ∧ Database.select_by_id i (rows w') = None
          ∧ (∀ j, j ≠ i →
               Database.select_by_id j (rows w')
               = Database.select_by_id j (rows w)))
     ∧ (fault env OpDelete ≠ None → r = StoreError ∧ rows w' = rows w)).
Proof.
  intros Hp Hi Hget Hrow p. simpl.
  pose proof (filter_found_is_shorter _ _ _ Hrow) as Hshort.
  run. rewrite (valid_id_num _ _ Hp Hi), Hp, Hget. simpl.
  rewrite Hrow. simpl. fold p. split.
  - intros [Hnone|Hf].
    + destruct (fault env OpUnlink); simpl.
      * by rewrite <-!app_assoc.
      * rewrite Hnone. simpl. by rewrite <-!app_assoc.
    + destruct (fault env OpUnlink); [|done]. simpl. by rewrite <-!app_assoc.
  - intros [b Hb] ->. simpl. rewrite Hb. simpl.
    destruct (fault env OpDelete) as [msg|]; simpl.
    + rewrite <-!app_assoc. split_and!; done.
    + destruct (0 <? _)%nat eqn:Hc; simpl.
      * rewrite <-!app_assoc. split_and!; try done. intros _. split_and!.
        -- done.
        -- done.
        -- apply select_by_id_filter_same.
        -- intros j Hj. by apply select_by_id_filter_other.
      * apply Nat.ltb_ge in Hc. lia.
Qed.

Lemma C5_witness :
  (trace (snd (BlobStorage.delete_blob defaults (at_time 0) "1" stored_world))
   = [SqlGet 1; FsUnlink ["srv"; "uploads"; "1700000000000.txt"]; SqlDelete 1]
   ∧ fst (BlobStorage.delete_blob defaults (at_time 0) "1" stored_world) = Deleted
   ∧ Database.select_by_id 1
       (rows (snd (BlobStorage.delete_blob defaults (at_time 0) "1" stored_world)))
     = None)
  ∧ fst (BlobStorage.delete_blob defaults (at_time 0) "1" orphan_world) = UnlinkError
  ∧ rows (snd (BlobStorage.delete_blob defaults (at_time 0) "1" orphan_world))
    = [orphan_row].
Proof.
  split.
  - pose proof (C5_remove_unlinks_before_deleting_the_row
      defaults (at_time 0) "1" 1 orphan_row stored_world
      eq_refl eq_refl eq_refl eq_refl) as [_ H].
    destruct H as (_ & Ht & _ & Hd & _); [by eexists|done|].
    destruct (Hd eq_refl) as (Hr & _ & Hsel & _). by split_and!.
  - pose proof (C5_remove_unlinks_before_deleting_the_row
      defaults (at_time 0) "1" 1 orphan_row orphan_world
      eq_refl eq_refl eq_refl eq_refl) as [H _].
    destruct H as (? & ? & _); [by left|]. by split.
Defined.

(** ** Upload: the validation gate *)

Lemma fileFilter_None o file :
  BlobStorage.fileFilter o file = None ↔
  allowedMimeTypes o = [] ∨ mimetype file ∈ allowedMimeTypes o.
Proof.
  unfold BlobStorage.fileFilter, Js.includes.
  destruct (allowedMimeTypes o) as [|t ts] eqn:E; simpl.
  - split; [by left|done].
  - case_bool_decide; simpl; split; try done.
    + by right.
    + intros [?|?]; done.
Qed.

Lemma fileFilter_Some o file e :
  BlobStorage.fileFilter o file = Some e →
  e = system_error ("File type " +:+ mimetype file +:+ " not allowed").
Proof.
  unfold BlobStorage.fileFilter. destruct (_ && _); [|done]. by intros [= <-].
Qed.

Lemma too_large_is_not_a_type_message m :
  TooLarge ≠ TypeNotAllowed m.
Proof. unfold TooLarge, TypeNotAllowed. simpl. intros H. discriminate H. Qed.

Lemma over_limit_spec o env file :
  BlobStorage.over_limit o env file = true ↔
  maxFileSize o < Z.of_nat (length (content file))
  ∨ (Z.of_nat (length (content file)) = maxFileSize o
     ∧ at_limit_is_too_large env = true).
Proof.
  unfold BlobStorage.over_limit.
  rewrite orb_true_iff, andb_true_iff, Z.ltb_lt, Z.eqb_eq. done.
Qed.

(** What POST /upload answers to a file part when the disk write itself
    does not fail. *)
Lemma post_upload_cases o env file w :
  fault env OpWrite = None →
  let r := fst (BlobStorage.post_upload o env (Some file) w) in
  match BlobStorage.fileFilter o file with
  | Some _ => r = TypeNotAllowed (mimetype file)
  | None =>
      if BlobStorage.over_limit o env file then r = TooLarge
      else r = StoreError ∨ ∃ i, r = Created i
  end.
Proof.
  intros Hw. run.
  destruct (BlobStorage.fileFilter o file) as [e|] eqn:Hf.
  - apply fileFilter_Some in Hf as ->. done.
  - simpl. rewrite Hw. simpl.
    destruct (BlobStorage.over_limit o env file); simpl; [done|].
    destruct (fault env OpInsert); simpl; [by left|right; by eexists].
Qed.

(** C4, as the code has it.  The type filter comes first: with no disk
    error in the way, POST /upload answers [TypeNotAllowed] exactly when
    [allowedMimeTypes] is non-empty and does not contain the declared type
    (exact string comparison), whatever the size; an empty
    [allowedMimeTypes] lets every type pass.  It answers [TooLarge]
    exactly when the type passes that filter and multer finds the part
    over [limits.fileSize = maxFileSize]: always when the payload is
    larger than [maxFileSize], never when it is smaller, and for a payload
    of exactly [maxFileSize] bytes as multer decides, which this code
    does not fix. *)
Theorem C4_type_filter_then_size_limit
    (o : BlobStorageOptions) (env : Env) (file : Part) (w : World) :
  fault env OpWrite = None →
  let r := fst (BlobStorage.post_upload o env (Some file) w) in
  let size := Z.of_nat (length (content file)) in
  let passes :=
    allowedMimeTypes o = [] ∨ mimetype file ∈ allowedMimeTypes o in
  (r = TypeNotAllowed (mimetype file) ↔
     allowedMimeTypes o ≠ [] ∧ mimetype file ∉ allowedMimeTypes o) ∧
  (r = TooLarge ↔
     passes ∧ (maxFileSize o < size
               ∨ (size = maxFileSize o ∧ at_limit_is_too_large env = true))) ∧
  (passes → maxFileSize o < size → r = TooLarge) ∧
  (size < maxFileSize o → r ≠ TooLarge) ∧
  (allowedMimeTypes o = [] → r ≠ TypeNotAllowed (mimetype file)).
Proof.
  intros Hw r size passes.
  pose proof (post_upload_cases o env file w Hw) as H. simpl in H. fold r in H.
  pose proof (fileFilter_None o file) as Hf. fold passes in Hf.
  pose proof (too_large_is_not_a_type_message (mimetype file)) as Hne.
  pose proof (over_limit_spec o env file) as Hover. fold size in Hover.
  destruct (BlobStorage.fileFilter o file) as [e|].
  - assert (¬ passes) as Hno by (intros Hx; apply Hf in Hx; done).
    unfold passes in *. rewrite H. split_and!; try tauto; try congruence.
    split; [intros Hr; by destruct Hne|tauto].
  - assert passes as Hyes by (by apply Hf).
    destruct (BlobStorage.over_limit o env file) eqn:Hs.
    + assert (maxFileSize o < size
              ∨ size = maxFileSize o ∧ at_limit_is_too_large env = true)
        as Hsz by (by apply Hover).
      rewrite H. unfold passes in *. split_and!.
      * split; [intros Hr; by destruct Hne|tauto].
      * tauto.
      * done.
      * lia.
      * intros _ Hr. by destruct Hne.
    + assert (¬ (maxFileSize o < size
                 ∨ size = maxFileSize o ∧ at_limit_is_too_large env = true))
        as Hsz by (intros Hx; apply Hover in Hx; done).
      assert (r ≠ TooLarge ∧ r ≠ TypeNotAllowed (mimetype file)) as [H1 H2].
      { destruct H as [->|[i ->]]; by split. }
      unfold passes in *. split_and!; [tauto|tauto| |done|done].
      intros _ Hlt. destruct Hsz. by left.
Qed.

Lemma C4_witness :
  fst (BlobStorage.post_upload png_only (at_time 0)
         (Some (twenty_bytes "image/png")) init) = TooLarge.
Proof.
  pose proof (C4_type_filter_then_size_limit png_only (at_time 0)
    (twenty_bytes "image/png") init eq_refl) as (_ & _ & H & _).
  apply H; [right; apply list_elem_of_here|done].
Defined.

(** The claim as written lets the size alone decide [TooLarge].  A
    20-byte payload against a 10-byte limit whose declared type is not in
    [allowedMimeTypes] is answered [TypeNotAllowed], not [TooLarge]. *)
Lemma C4_counterexample :
  maxFileSize png_only < Z.of_nat (length (content (twenty_bytes "text/plain")))
  ∧ fst (BlobStorage.post_upload png_only (at_time 0)
           (Some (twenty_bytes "text/plain")) init) = TypeNotAllowed "text/plain"
  ∧ TypeNotAllowed "text/plain" ≠ TooLarge.
Proof. split_and!; [done|reflexivity|discriminate]. Qed.

(** ** Upload: partial failures *)

(** C6. In POST /upload, when the disk write fails the answer is the write
    error and no INSERT is issued, so no row appears; when the INSERT
    fails after the file was written (a part within the limit that multer
    let through) the answer is [StoreError], the file stays where it was
    written and nothing is unlinked. *)
Theorem C6_create_failures_leave_no_row_and_no_rollback
    (o : BlobStorageOptions) (env : Env) (file : Part) (w : World) :
  BlobStorage.fileFilter o file = None →
  let name := BlobStorage.storage_filename env file in
  let p := Js.path_join (storageDir o) name in
  let r := fst (BlobStorage.post_upload o env (Some file) w) in
  let w' := snd (BlobStorage.post_upload o env (Some file) w) in
  (∀ msg, fault env OpWrite = Some msg →
     r = WriteError msg ∧ rows w' = rows w ∧ seq w' = seq w
     ∧ trace w' = trace w ++ [FsWrite p]) ∧
  (fault env OpWrite = None →
   Z.of_nat (length (content file)) ≤ maxFileSize o →
   (Z.of_nat (length (content file)) = maxFileSize o →
      at_limit_is_too_large env = false) →
   fault env OpInsert ≠ None →
     r = StoreError ∧ rows w' = rows w ∧ seq w' = seq w
     ∧ files w' = <[p := content file]> (files w)
     ∧ trace w' = trace w ++
         [FsWrite p; SqlInsert (originalname file) (mimetype file) name]).
Proof.
  intros Hf name p. simpl. run. rewrite Hf. simpl. fold name p. split.
  - intros msg ->. done.
  - intros -> Hsize Hlimit Hins. simpl.
    assert (BlobStorage.over_limit o env file = false) as ->.
    { apply not_true_is_false. intros [?|[Heq Hflag]]%over_limit_spec; [lia|].
      rewrite (Hlimit Heq) in Hflag. done. }
    simpl. destruct (fault env OpInsert); [|done]. simpl.
    by rewrite <-!app_assoc.
Qed.

Lemma C6_witness :
  (fst (BlobStorage.post_upload defaults (failing OpWrite "ENOSPC: no space left on device")
          (Some (a_txt "hello" "text/plain")) init)
     = WriteError "ENOSPC: no space left on device"
   ∧ rows (snd (BlobStorage.post_upload defaults (failing OpWrite "ENOSPC: no space left on device")
          (Some (a_txt "hello" "text/plain")) init)) = [])
  ∧ (fst (BlobStorage.post_upload defaults (failing OpInsert "SQLITE_BUSY")
          (Some (a_txt "hello" "text/plain")) init) = StoreError
     ∧ files (snd (BlobStorage.post_upload defaults (failing OpInsert "SQLITE_BUSY")
          (Some (a_txt "hello" "text/plain")) init))
       = {[ ["srv"; "uploads"; "1700000000000.txt"] := bytes_of "hello" ]}).
Proof.
  split.
  - pose proof (C6_create_failures_leave_no_row_and_no_rollback defaults
      (failing OpWrite "ENOSPC: no space left on device")
      (a_txt "hello" "text/plain") init eq_refl) as [H _].
    destruct (H _ eq_refl) as (? & ? & _). by split.
  - pose proof (C6_create_failures_leave_no_row_and_no_rollback defaults
      (failing OpInsert "SQLITE_BUSY")
      (a_txt "hello" "text/plain") init eq_refl) as [_ H].
    destruct H as (? & _ & _ & ? & _); [done|done|done|done|]. by split.
Defined.

(** ** Listing *)

Section Listing.

#[local] Instance newer_first_total : Total Database.newer_first.
Proof.
  intros a b. unfold Database.newer_first.
  destruct (total String.le (upload_timestamp a) (upload_timestamp b)); auto.
Qed.

#[local] Instance newer_first_trans : Transitive Database.newer_first.
Proof.
  intros a b c Hab Hbc. unfold Database.newer_first in *. by etrans.
Qed.

(** GET /files with a working database answers every row of the table,
    each once, newest timestamp first. *)
Lemma get_files_sorted env w :
  fault env OpAll = None →
  ∃ listed,
    fst (BlobStorage.get_files env w)
      = {| status := 200; body := RowsResponse listed |}
    ∧ listed ≡ₚ rows w
    ∧ StronglySorted Database.newer_first listed.
Proof.
  intros Hf. run. rewrite Hf. simpl. eexists. split; [done|]. split.
  - apply merge_sort_Permutation.
  - apply (StronglySorted_merge_sort _).
Qed.

(** Apart from DELETE, a request adds a row exactly when it is an upload
    that is answered with an id. *)
Lemma handle_rows o env rq w :
  is_delete rq = false →
  length (rows (snd (handle o env rq w)))
  = (length (rows w) + (if created (fst (handle o env rq w)) then 1 else 0))%nat.
Proof.
  destruct rq as [part| |param|param]; simpl; [| | |done]; intros _.
  - run. destruct part as [file|]; simpl; [|lia].
    destruct (BlobStorage.fileFilter o file) as [e|]; simpl.
    { destruct (bool_decide _); simpl; lia. }
    destruct (fault env OpWrite); simpl; [lia|].
    destruct (BlobStorage.over_limit o env file); simpl; [lia|].
    destruct (fault env OpInsert); simpl; [lia|].
    rewrite length_app. simpl. lia.
  - pose proof (get_files_frame env w) as (-> & _). simpl.
    run. destruct (fault env OpAll); simpl; lia.
  - pose proof (get_blob_frame o env param w) as (-> & _). simpl.
    run. destruct (BlobStorage.invalid_id _); simpl; [lia|].
    destruct (fault env OpGet); simpl; [lia|].
    destruct (Database.select_by_id _ _); simpl; [|lia].
    destruct (fault env OpAccess); simpl; [lia|].
    destruct (files w !! _); simpl; [|lia].
    destruct (existsb _ _); simpl; [lia|].
    destruct (fault env OpSendFile); simpl; [lia|].
    destruct (files w !! _); simpl; lia.
Qed.

Lemma serve_rows o l : ∀ w,
  forallb (λ er, negb (is_delete er.2)) l = true →
  length (rows (snd (serve o l w)))
  = (length (rows w) + length (List.filter created (fst (serve o l w))))%nat.
Proof.
  induction l as [|[env rq] l IH]; intros w Hl; simpl in *.
  { unfold mret, M_ret. simpl. lia. }
  apply andb_prop in Hl as [Hrq Hl]. apply negb_true_iff in Hrq.
  pose proof (handle_rows o env rq w Hrq) as Hh.
  unfold mbind, M_bind, mret, M_ret.
  destruct (handle o env rq w) as [r w1]. simpl in Hh.
  specialize (IH w1 Hl). destruct (serve o l w1) as [rs w2]. simpl in *.
  destruct (created r); simpl; lia.
Qed.

End Listing.

(** C8. GET /files answers all rows of the metadata table ordered by
    [upload_timestamp] descending; and after any run of requests without a
    DELETE on a fresh service, it answers exactly as many records as
    uploads were answered with an id. *)
Theorem C8_list_is_newest_first_and_complete
    (o : BlobStorageOptions) (env : Env) (w : World)
    (l : list (Env * Request)) :
  fault env OpAll = None →
  forallb (λ er, negb (is_delete er.2)) l = true →
  (∃ listed,
     fst (BlobStorage.get_files env w)
       = {| status := 200; body := RowsResponse listed |}
     ∧ listed ≡ₚ rows w
     ∧ StronglySorted
         (λ a b, String.le (upload_timestamp b) (upload_timestamp a)) listed) ∧
  (∃ listed,
     fst (BlobStorage.get_files env (snd (serve o l init)))
       = {| status := 200; body := RowsResponse listed |}
     ∧ length listed = length (List.filter created (fst (serve o l init)))).
Proof.
  intros Hf Hl. split; [by apply get_files_sorted|].
  destruct (get_files_sorted env (snd (serve o l init)) Hf)
    as (listed & Hr & Hperm & _).
  exists listed. split; [done|].
  rewrite (Permutation_length Hperm), (serve_rows o l init Hl). done.
Qed.

Lemma C8_witness :
  ∃ listed,
    fst (BlobStorage.get_files (at_time 1700000200000)
           (snd (serve defaults three_uploads init)))
      = {| status := 200; body := RowsResponse listed |}
    ∧ length listed = 3%nat.
Proof.
  pose proof (C8_list_is_newest_first_and_complete defaults
    (at_time 1700000200000) init three_uploads eq_refl eq_refl) as [_ H].
  exact H.
Defined.

(** ** Characters, [span] and decimal numerals *)

Section Chars.

Lemma chars_app a b : chars (a +:+ b) = chars a ++ chars b.
Proof. induction a as [|c a IH]; simpl; [done|]. by rewrite <-IH. Qed.

Lemma of_chars_chars s : of_chars (chars s) = s.
Proof. apply string_of_list_ascii_of_string. Qed.

Lemma chars_of_chars l : chars (of_chars l) = l.
Proof. apply list_ascii_of_string_of_list_ascii. Qed.

Context {A : Type} (p : A → bool).

Lemma span_all l :
  Forall (λ x, p x = true) l → span p l = (l, []).
Proof. induction 1 as [|x l Hx _ IH]; simpl; [done|]. by rewrite Hx, IH. Qed.

Lemma span_nothing l :
  Forall (λ x, p x = false) l → span p l = ([], l).
Proof. destruct 1 as [|x l Hx _]; simpl; [done|]. by rewrite Hx. Qed.

Lemma span_stop a x b :
  Forall (λ y, p y = true) a → p x = false →
  span p (a ++ x :: b) = (a, x :: b).
Proof.
  intros Ha Hx. induction Ha as [|y a Hy _ IH]; simpl.
  - by rewrite Hx.
  - by rewrite Hy, IH.
Qed.

Lemma span_spec l :
  span p l = (fst (span p l), snd (span p l))
  ∧ l = fst (span p l) ++ snd (span p l)
  ∧ Forall (λ x, p x = true) (fst (span p l)).
Proof.
  induction l as [|x l (IH1 & IH2 & IH3)]; simpl; [done|].
  destruct (p x) eqn:Hx; [|done].
  destruct (span p l) as [a b]. simpl in *. split_and!; [done|by f_equal|].
  by constructor.
Qed.

End Chars.

(** A character of a decimal numeral is none of the characters the
    parsers and the path functions treat specially. *)
Lemma decimal_plain c :
  Js.is_decimal c = true →
  Js.is_white c = false ∧ c ≠ "-"%char ∧ c ≠ "+"%char ∧ c ≠ "x"%char
  ∧ c ≠ "X"%char ∧ is_slash c = false ∧ is_dot c = false.
Proof.
  destruct c as [[] [] [] [] [] [] [] []]; intros H;
    try discriminate H; split_and!; done.
Qed.

Lemma pretty_N_char_decimal d : Js.is_decimal (pretty_N_char d) = true.
Proof. unfold pretty_N_char. by repeat case_match. Qed.

Lemma pretty_N_char_value d :
  (d < 10)%N → Js.digit_value 10 (pretty_N_char d) = Some d.
Proof.
  intros Hd.
  assert (d = 0 ∨ d = 1 ∨ d = 2 ∨ d = 3 ∨ d = 4 ∨ d = 5 ∨ d = 6 ∨ d = 7
          ∨ d = 8 ∨ d = 9)%N as Hc by lia.
  repeat destruct Hc as [->|Hc]; try done. by subst.
Qed.

Lemma pretty_N_go_decimal x : ∀ s,
  Forall (λ c, Js.is_decimal c = true) (chars s) →
  Forall (λ c, Js.is_decimal c = true) (chars (pretty_N_go x s)).
Proof.
  induction (N.lt_wf_0 x) as [x _ IH]. intros s Hs.
  destruct (decide (x = 0)%N) as [->|Hx]; [done|].
  rewrite pretty_N_go_step by lia.
  apply IH; [apply N.div_lt; lia|].
  simpl. constructor; [apply pretty_N_char_decimal|done].
Qed.

Lemma pretty_N_go_nonempty x : ∀ s, s ≠ "" → pretty_N_go x s ≠ "".
Proof.
  induction (N.lt_wf_0 x) as [x _ IH]. intros s Hs.
  destruct (decide (x = 0)%N) as [->|Hx]; [done|].
  rewrite pretty_N_go_step by lia. apply IH; [apply N.div_lt; lia|done].
Qed.

(** The numeral of a positive number: a non-empty string of decimal digits. *)
Lemma pretty_pos_decimal (q : positive) :
  ∃ c t, pretty (Z.pos q) = String c t
  ∧ Js.is_decimal c = true ∧ Forall (λ c, Js.is_decimal c = true) (chars t).
Proof.
  change (pretty (Z.pos q)) with (pretty_N_go (N.pos q) "").
  pose proof (pretty_N_go_decimal (N.pos q) "" ltac:(constructor)) as Hall.
  rewrite pretty_N_go_step in * by lia.
  pose proof (pretty_N_go_nonempty (N.pos q `div` 10)
    (String (pretty_N_char (N.pos q `mod` 10)) "")) as Hne.
  destruct (pretty_N_go _ _) as [|c t]; [by destruct Hne|].
  simpl in Hall. inversion Hall; subst. eauto.
Qed.

(** [String(n)]: digits, after a minus sign when [n] is negative. *)
Lemma Number_toString_shape z :
  ∃ c t, Js.Number_toString z = String c t
  ∧ (Js.is_decimal c = true ∨ c = "-"%char)
  ∧ Forall (λ c, Js.is_decimal c = true) (chars t).
Proof.
  unfold Js.Number_toString. destruct z as [|q|q].
  - exists "0"%char, "". split_and!; [done|by left|constructor].
  - destruct (pretty_pos_decimal q) as (c & t & -> & ? & ?). eauto 6.
  - destruct (pretty_pos_decimal q) as (c & t & E & ? & ?).
    exists "-"%char, (String c t). split_and!; [|by right|].
    + change (pretty (Z.neg q)) with ("-" +:+ pretty (Z.pos q)). by rewrite E.
    + simpl. by constructor.
Qed.

(** ** [path.extname], [path.join] and the stored name *)

Lemma extname_extension s : extension (Js.extname s).
Proof.
  unfold Js.extname.
  set (r := snd (span is_slash (rev (chars s)))).
  pose proof (span_spec (λ c, negb (is_slash c)) r) as (_ & _ & Hbase).
  set (base := fst (span (λ c, negb (is_slash c)) r)) in *.
  pose proof (span_spec (λ c, negb (is_dot c)) base) as (E & Happ & Hext).
  rewrite E. set (ext := fst (span _ base)) in *.
  set (rest := snd (span _ base)) in *. clearbody ext rest.
  destruct rest as [|d [|b before]]; [by left..|].
  case_bool_decide; [by left|]. right. exists (rev ext). split.
  - rewrite rev_app_distr. done.
  - apply List.Forall_rev, Forall_forall. intros c Hc. split.
    + rewrite Forall_forall in Hbase. apply negb_true_iff, Hbase.
      rewrite Happ. apply elem_of_app. by left.
    + rewrite Forall_forall in Hext. by apply negb_true_iff, Hext.
Qed.

(** A name made of a non-empty run of plain characters and an extension
    has that extension. *)
Lemma extname_plain_extension d e :
  d ≠ "" → Forall plain (chars d) → extension e →
  Js.extname (d +:+ e) = e.
Proof.
  intros Hd Hplain He. unfold Js.extname. rewrite chars_app.
  assert (Forall plain (rev (chars d))) as Hrev by by apply List.Forall_rev.
  assert (rev (chars d) ≠ []) as Hne.
  { destruct d; [done|]. simpl. intros H%(f_equal length).
    rewrite length_app in H. simpl in H. lia. }
  destruct He as [->|(l & -> & Hl)].
  - simpl. rewrite app_nil_r.
    rewrite (span_nothing is_slash (rev (chars d)))
      by (eapply Forall_impl; [exact Hrev|by intros c [? ?]]).
    simpl.
    rewrite (span_all (λ c, negb (is_slash c)) (rev (chars d)))
      by (eapply Forall_impl; [exact Hrev|intros c [-> ?]; done]).
    simpl.
    rewrite (span_all (λ c, negb (is_dot c)) (rev (chars d)))
      by (eapply Forall_impl; [exact Hrev|intros c [? ->]; done]).
    done.
  - simpl. rewrite chars_of_chars.
    replace (rev (chars d ++ "."%char :: l))
      with (rev l ++ "."%char :: rev (chars d))
      by (rewrite rev_app_distr; simpl; by rewrite <-app_assoc).
    assert (Forall plain (rev l)) as Hrl by by apply List.Forall_rev.
    set (whole := rev l ++ "."%char :: rev (chars d)).
    assert (Forall (λ c, is_slash c = false) whole) as Hns.
    { apply Forall_app. split; [eapply Forall_impl; [exact Hrl|by intros c [? ?]]|].
      constructor; [done|]. eapply Forall_impl; [exact Hrev|by intros c [? ?]]. }
    rewrite (span_nothing is_slash whole) by done. simpl.
    rewrite (span_all (λ c, negb (is_slash c)) whole)
      by (eapply Forall_impl; [exact Hns|intros c ->; done]).
    simpl. unfold whole.
    rewrite (span_stop (λ c, negb (is_dot c)) (rev l) "."%char (rev (chars d)));
      [|eapply Forall_impl; [exact Hrl|intros c [? ->]; done]|done].
    destruct (rev (chars d)) as [|b before] eqn:Eb; [done|].
    case_bool_decide as Hdd.
    + destruct Hdd as [_ [= -> _]]. inversion Hrev as [|? ? [_ Hdot] _]. done.
    + rewrite rev_app_distr. simpl. rewrite rev_involutive. done.
Qed.

Lemma segments_single s :
  Forall (λ c, is_slash c = false) (chars s) → Js.segments s = [s].
Proof.
  induction s as [|c s IH]; simpl; [done|].
  intros H. inversion H as [|? ? Hc Hs]; subst. rewrite Hc, (IH Hs). done.
Qed.

(** The shape of every stored name: a numeral, then an extension. *)
Lemma storage_filename_shape env file :
  ∃ c t,
    BlobStorage.storage_filename env file = String c t
    ∧ (Js.is_decimal c = true ∨ c = "-"%char)
    ∧ Forall (λ c, is_slash c = false) (chars t).
Proof.
  unfold BlobStorage.storage_filename.
  destruct (Number_toString_shape (date_now env)) as (c & t & -> & Hc & Ht).
  exists c, (t +:+ Js.extname (originalname file)). split_and!; [done..|].
  rewrite chars_app. apply Forall_app. split.
  - eapply Forall_impl; [exact Ht|]. intros x Hx. by apply decimal_plain.
  - destruct (extname_extension (originalname file)) as [->|(l & -> & Hl)];
      simpl; [constructor|].
    constructor; [done|]. rewrite chars_of_chars.
    eapply Forall_impl; [exact Hl|by intros x [? ?]].
Qed.

Lemma storage_filename_first_char c t :
  Js.is_decimal c = true ∨ c = "-"%char →
  is_slash c = false ∧ String c t ≠ "" ∧ String c t ≠ "." ∧ String c t ≠ ".."
  ∧ Fs.hidden (String c t) = false.
Proof.
  intros [H| ->].
  - destruct (decimal_plain c H) as (_ & _ & _ & _ & _ & Hs & Hd).
    unfold is_dot in Hd. apply bool_decide_eq_false in Hd.
    split_and!; try done; try (by intros [= -> _]).
    unfold Fs.hidden.
    destruct c as [[] [] [] [] [] [] [] []]; try done.
  - split_and!; done.
Qed.

(** The file of an upload is a direct child of the storage directory. *)
Lemma storage_filename_in_storageDir dir env file :
  Js.path_join dir (BlobStorage.storage_filename env file)
  = dir ++ [BlobStorage.storage_filename env file].
Proof.
  destruct (storage_filename_shape env file) as (c & t & E & Hc & Ht).
  destruct (storage_filename_first_char c t Hc) as (Hs & H0 & H1 & H2 & _).
  rewrite E. unfold Js.path_join.
  rewrite segments_single by (simpl; by constructor).
  simpl. unfold Js.enter.
  rewrite bool_decide_eq_false_2 by (by intros [?|?]).
  by rewrite bool_decide_eq_false_2.
Qed.

Lemma storage_filename_not_hidden env file :
  existsb Fs.hidden (Js.segments (BlobStorage.storage_filename env file)) = false.
Proof.
  destruct (storage_filename_shape env file) as (c & t & E & Hc & Ht).
  destruct (storage_filename_first_char c t Hc) as (Hs & _ & _ & _ & Hh).
  rewrite E, segments_single by (simpl; by constructor).
  cbn [existsb]. by rewrite Hh.
Qed.

(** The stored name keeps the extension of the original name. *)
Lemma storage_filename_extname env file :
  Js.extname (BlobStorage.storage_filename env file)
  = Js.extname (originalname file).
Proof.
  unfold BlobStorage.storage_filename.
  destruct (Number_toString_shape (date_now env)) as (c & t & E & Hc & Ht).
  apply extname_plain_extension; [by rewrite E| |apply extname_extension].
  rewrite E. simpl. constructor.
  - destruct Hc as [Hc| ->]; [|done].
    by destruct (decimal_plain c Hc) as (_ & _ & _ & _ & _ & ? & ?).
  - eapply Forall_impl; [exact Ht|]. intros x Hx.
    by destruct (decimal_plain x Hx) as (_ & _ & _ & _ & _ & ? & ?).
Qed.

(** ** [parseInt] reads back what [String] printed *)

Lemma parse_digits_pretty_N_go y : ∀ s,
  (0 < y)%N →
  Js.parse_digits 10 None (pretty_N_go y s) = Js.parse_digits 10 (Some y) s.
Proof.
  induction (N.lt_wf_0 y) as [y _ IH]. intros s Hy.
  rewrite pretty_N_go_step by done.
  assert (y `mod` 10 < 10)%N as Hd by (apply N.mod_lt; lia).
  assert (y = 10 * (y `div` 10) + y `mod` 10)%N as Hdm by (apply N.div_mod; lia).
  destruct (decide (y `div` 10 = 0)%N) as [E|E].
  - rewrite E, pretty_N_go_0. cbn [Js.parse_digits].
    rewrite (pretty_N_char_value _ Hd). unfold default, from_option.
    do 2 f_equal. lia.
  - rewrite IH; [|apply N.div_lt; lia|lia]. cbn [Js.parse_digits].
    rewrite (pretty_N_char_value _ Hd). unfold default, from_option, Datatypes.id.
    by rewrite <-Hdm.
Qed.

Lemma trim_start_decimal c t :
  Js.is_decimal c = true → Js.trim_start (String c t) = String c t.
Proof.
  intros Hc. destruct (decimal_plain c Hc) as (Hw & _).
  assert (∀ b, Js.is_white2 c b = false) as H2.
  { intros b. unfold Js.is_white2.
    destruct c as [[] [] [] [] [] [] [] []]; try discriminate Hc; done. }
  assert (∀ b d, Js.is_white3 c b d = false) as H3.
  { intros b d. unfold Js.is_white3.
    destruct c as [[] [] [] [] [] [] [] []]; try discriminate Hc; done. }
  cbn [Js.trim_start]. rewrite Hw.
  destruct t as [|b [|d t]]; [done|by rewrite H2|by rewrite H2, H3].
Qed.

Lemma parseInt_numeral c t :
  Js.is_decimal c = true → Forall (λ c, Js.is_decimal c = true) (chars t) →
  Js.parseInt (String c t)
  = match Js.parse_digits 10 None (String c t) with
    | None => Js.NaN
    | Some n => Js.Num (Z.of_N n)
    end.
Proof.
  intros Hc Ht. unfold Js.parseInt.
  destruct (decimal_plain c Hc) as (Hw & Hm & Hp & _).
  rewrite (trim_start_decimal c t Hc).
  rewrite (bool_decide_eq_false_2 _ Hm), (bool_decide_eq_false_2 _ Hp).
  destruct t as [|x t]; [done|].
  inversion Ht as [|? ? Hx _]; subst.
  destruct (decimal_plain x Hx) as (_ & _ & _ & Hx1 & Hx2 & _).
  rewrite bool_decide_eq_false_2; [done|]. intros [_ [?|?]]; done.
Qed.

Lemma parseInt_Number_toString (i : Z) :
  0 < i → Js.parseInt (Js.Number_toString i) = Js.Num i.
Proof.
  intros Hi. destruct i as [|q|q]; try lia. unfold Js.Number_toString.
  destruct (pretty_pos_decimal q) as (c & t & E & Hc & Ht).
  rewrite E, (parseInt_numeral c t Hc Ht), <-E.
  change (pretty (Z.pos q)) with (pretty_N_go (N.pos q) "").
  by rewrite parse_digits_pretty_N_go.
Qed.

(** ** Round trip *)

Lemma max_rowid_bound r row :
  row ∈ r → id row ≤ Database.max_rowid r ∧ 0 ≤ Database.max_rowid r.
Proof.
  induction r as [|x r IH]; [by intros ?%elem_of_nil|].
  assert (0 ≤ Database.max_rowid r) as H0.
  { clear. induction r as [|y r IH]; simpl; lia. }
  simpl. intros [->|Hin]%elem_of_cons; [lia|].
  destruct (IH Hin). lia.
Qed.

Lemma next_rowid_fresh w :
  0 < Database.next_rowid w
  ∧ Database.select_by_id (Database.next_rowid w) (rows w) = None.
Proof.
  unfold Database.next_rowid. split.
  - assert (0 ≤ Database.max_rowid (rows w)); [|lia].
    generalize (rows w). induction l as [|y r IH]; simpl; lia.
  - unfold Database.select_by_id.
    destruct (find _ (rows w)) as [row|] eqn:E; [|done].
    apply find_some in E as [Hin%list_elem_of_In Hid%bool_decide_eq_true].
    destruct (max_rowid_bound _ _ Hin). lia.
Qed.

Lemma select_by_id_last i r row :
  Database.select_by_id i r = None → id row = i →
  Database.select_by_id i (r ++ [row]) = Some row.
Proof.
  unfold Database.select_by_id. intros Hnone Hid.
  induction r as [|x r IH]; simpl in *.
  - by rewrite bool_decide_eq_true_2.
  - destruct (bool_decide (id x = i)); [done|]. by apply IH.
Qed.

(** What a successful POST /upload has done. *)
Lemma post_upload_created o env file w i :
  fst (BlobStorage.post_upload o env (Some file) w) = Created i →
  let name := BlobStorage.storage_filename env file in
  let w' := snd (BlobStorage.post_upload o env (Some file) w) in
  i = Database.next_rowid w
  ∧ rows w' = rows w ++
      [{| id := i; original_name := originalname file;
          mime_type := mimetype file; path := name;
          upload_timestamp := Js.toISOString (new_date env) |}]
  ∧ files w' = <[Js.path_join (storageDir o) name := content file]> (files w).
Proof.
  run. destruct (BlobStorage.fileFilter o file) as [e|]; simpl.
  { by destruct (bool_decide _). }
  destruct (fault env OpWrite); simpl; [done|].
  destruct (BlobStorage.over_limit o env file); simpl; [done|].
  destruct (fault env OpInsert); simpl; [done|].
  by intros [= <-].
Qed.

(** C1, as the code has it.  After a successful POST /upload answered with
    [i], a GET /blob/i that meets no I/O error answers exactly the bytes
    that were uploaded; its Content-Type is the one [res.sendFile] looks up
    from the extension of the stored name, which is the extension of the
    original file name.  The declared type is kept in the row and is not
    what the answer is typed with. *)
Theorem C1_retrieve_returns_uploaded_bytes_typed_by_extension
    (o : BlobStorageOptions) (env env' : Env) (file : Part) (w : World) (i : Z) :
  fst (BlobStorage.post_upload o env (Some file) w) = Created i →
  fault env' OpGet = None → fault env' OpAccess = None →
  fault env' OpSendFile = None →
  let w' := snd (BlobStorage.post_upload o env (Some file) w) in
  fst (BlobStorage.get_blob o env' (Js.Number_toString i) w')
  = {| status := 200;
       body := FileResponse
                 (Fs.mime_contentType (Js.extname (originalname file)))
                 (content file) |}
  ∧ (mime_type <$> Database.select_by_id i (rows w')) = Some (mimetype file).
Proof.
  intros Hup Hg Ha Hs w'.
  destruct (post_upload_created o env file w i Hup) as (Hi & Hrows & Hfiles).
  fold w' in Hrows, Hfiles.
  destruct (next_rowid_fresh w) as [Hpos Hfresh]. rewrite <-Hi in Hpos, Hfresh.
  pose proof (select_by_id_last i (rows w)
    {| id := i; original_name := originalname file;
       mime_type := mimetype file;
       path := BlobStorage.storage_filename env file;
       upload_timestamp := Js.toISOString (new_date env) |}
    Hfresh eq_refl) as Hsel.
  rewrite <-Hrows in Hsel. split; [|by rewrite Hsel].
  pose proof (parseInt_Number_toString i Hpos) as Hparse.
  unfold BlobStorage.get_blob.
  rewrite (valid_id_num _ _ Hparse Hpos), Hparse.
  clear Hup. clearbody w'.
  run. rewrite Hg. simpl. rewrite Hsel. simpl. rewrite Ha. simpl.
  rewrite Hfiles, lookup_insert_eq. simpl.
  rewrite storage_filename_not_hidden, Hs. simpl.
  by rewrite Hfiles, lookup_insert_eq, storage_filename_extname.
Qed.

Lemma C1_witness :
  fst (BlobStorage.get_blob defaults (at_time 1700000000001) "1"
         (snd (BlobStorage.post_upload defaults (at_time 1700000000000)
                 (Some (a_txt "hello" "text/plain")) init)))
  = {| status := 200;
       body := FileResponse "text/plain; charset=utf-8" (bytes_of "hello") |}.
Proof.
  pose proof (C1_retrieve_returns_uploaded_bytes_typed_by_extension defaults
    (at_time 1700000000000) (at_time 1700000000001)
    (a_txt "hello" "text/plain") init 1 eq_refl eq_refl eq_refl eq_refl) as [H _].
  exact H.
Defined.

(** The claim as written types the answer with the [mime_type] of the row.
    A file named [a.txt] uploaded with the declared type
    [application/json] is stored with that type in its row and served as
    [text/plain; charset=utf-8]. *)
Lemma C1_counterexample :
  let up := BlobStorage.post_upload defaults (at_time 1700000000000)
              (Some (a_txt "hello" "application/json")) init in
  fst up = Created 1
  ∧ (mime_type <$> Database.select_by_id 1 (rows (snd up)))
    = Some "application/json"
  ∧ fst (BlobStorage.get_blob defaults (at_time 1700000000001) "1" (snd up))
    = {| status := 200;
         body := FileResponse "text/plain; charset=utf-8" (bytes_of "hello") |}
  ∧ "text/plain; charset=utf-8" ≠ "application/json".
Proof. split_and!; [reflexivity..|discriminate]. Qed.

(** ** Stored names *)

(** An upload writes at most the one file named by the filename callback. *)
Lemma post_upload_writes_one_path o env file w q :
  q ≠ Js.path_join (storageDir o) (BlobStorage.storage_filename env file) →
  files (snd (BlobStorage.post_upload o env (Some file) w)) !! q = files w !! q.
Proof.
  intros Hq. run. destruct (BlobStorage.fileFilter o file) as [e|]; simpl.
  { by destruct (bool_decide _). }
  destruct (fault env OpWrite); simpl; [done|].
  destruct (BlobStorage.over_limit o env file); simpl; [by rewrite lookup_delete_ne|].
  destruct (fault env OpInsert); simpl; by rewrite lookup_insert_ne.
Qed.

(** The stored name is the original name exactly when the original name
    is the clock reading followed by an extension. *)
Lemma storage_filename_verbatim env file :
  BlobStorage.storage_filename env file = originalname file ↔
  ∃ e, extension e
       ∧ originalname file = Js.Number_toString (date_now env) +:+ e.
Proof.
  unfold BlobStorage.storage_filename. split.
  - intros H. exists (Js.extname (originalname file)).
    split; [apply extname_extension|done].
  - intros (e & He & Ho).
    destruct (Number_toString_shape (date_now env)) as (c & t & E & Hc & Ht).
    assert (Js.extname (originalname file) = e) as ->; [|done].
    rewrite Ho. apply extname_plain_extension; [by rewrite E| |done].
    rewrite E. simpl. constructor.
    + destruct Hc as [Hc| ->]; [|done].
      by destruct (decimal_plain c Hc) as (_ & _ & _ & _ & _ & ? & ?).
    + eapply Forall_impl; [exact Ht|]. intros x Hx.
      by destruct (decimal_plain x Hx) as (_ & _ & _ & _ & _ & ? & ?).
Qed.

(** C9, as the code has it.  The stored name is the decimal clock reading
    followed by the extension of the original name: it starts with a digit
    (or a minus sign) and contains no path separator.  Joined to the
    storage directory it names a direct child of that directory, which is
    the only path an upload writes, whatever the original name.  It is
    the original name verbatim exactly when the client named the file
    after the clock: the decimal reading of that very millisecond,
    followed by nothing or by one extension (a dot and characters that
    are neither dots nor separators).  For every other original name it
    differs, in particular for every name that contains a separator or
    starts with another character than a digit or a minus sign. *)
Theorem C9_stored_name_stays_inside_storage_dir
    (o : BlobStorageOptions) (env : Env) (file : Part) (w : World) :
  let name := BlobStorage.storage_filename env file in
  (∃ c t, name = String c t ∧ (Js.is_decimal c = true ∨ c = "-"%char)
          ∧ Forall (λ c, is_slash c = false) (chars t))
  ∧ Js.path_join (storageDir o) name = storageDir o ++ [name]
  ∧ (∀ q, q ≠ storageDir o ++ [name] →
       files (snd (BlobStorage.post_upload o env (Some file) w)) !! q
       = files w !! q)
  ∧ ("/"%char ∈ chars (originalname file) → name ≠ originalname file)
  ∧ (∀ c t, originalname file = String c t →
       Js.is_decimal c = false → c ≠ "-"%char → name ≠ originalname file)
  ∧ (name = originalname file ↔
       ∃ e, (e = "" ∨ ∃ l, e = String "." (of_chars l)
                            ∧ Forall (λ c, is_slash c = false
                                           ∧ is_dot c = false) l)
            ∧ originalname file = Js.Number_toString (date_now env) +:+ e).
Proof.
  intros name.
  pose proof (storage_filename_shape env file) as (c & t & E & Hc & Ht).
  fold name in E. split_and!.
  - eauto.
  - apply storage_filename_in_storageDir.
  - intros q Hq. apply post_upload_writes_one_path.
    by rewrite storage_filename_in_storageDir.
  - intros Hin Heq. rewrite <-Heq, E in Hin. simpl in Hin.
    destruct (storage_filename_first_char c t Hc) as (Hs & _).
    apply elem_of_cons in Hin as [<-|Hin]; [done|].
    rewrite Forall_forall in Ht. by specialize (Ht _ Hin).
  - intros c' t' E' Hd Hm Heq. rewrite E, E' in Heq.
    injection Heq as -> _. destruct Hc; congruence.
  - apply storage_filename_verbatim.
Qed.

Lemma C9_witness :
  BlobStorage.storage_filename (at_time 1700000000000) passwd
  ≠ "../../etc/passwd"
  ∧ BlobStorage.storage_filename (at_time 1700000000000)
      {| originalname := "9.txt"; mimetype := "text/plain";
         content := bytes_of "nine" |}
    ≠ "9.txt".
Proof.
  split.
  - pose proof (C9_stored_name_stays_inside_storage_dir defaults
      (at_time 1700000000000) passwd init) as (_ & _ & _ & H & _).
    apply H. vm_compute.
    do 2 apply list_elem_of_further. apply list_elem_of_here.
  - pose proof (C9_stored_name_stays_inside_storage_dir defaults
      (at_time 1700000000000)
      {| originalname := "9.txt"; mimetype := "text/plain";
         content := bytes_of "nine" |} init) as (_ & _ & _ & _ & _ & H).
    intros Heq. apply H in Heq as (e & _ & He).
    vm_compute in He. discriminate He.
Defined.

(** The claim as written says the stored name is never the original name.
    A client that names its file after the clock gets exactly that name
    back as the stored name. *)
Lemma C9_counterexample :
  BlobStorage.storage_filename (at_time 1700000000000)
    {| originalname := "1700000000000.txt"; mimetype := "text/plain";
       content := bytes_of "hello" |}
  = "1700000000000.txt".
Proof. reflexivity. Qed.

(** C2 fails on the code.  Two uploads of [a.txt] whose filename callbacks
    read the same millisecond are both answered with an id, both rows name
    the file [1700000000000.txt], and the first blob now reads back as the
    bytes of the second. *)
Theorem C2_same_tick_uploads_share_a_stored_name :
  let tick := at_time 1700000000000 in
  let up1 := BlobStorage.post_upload defaults tick
               (Some (a_txt "first" "text/plain")) init in
  let up2 := BlobStorage.post_upload defaults tick
               (Some (a_txt "second" "text/plain")) (snd up1) in
  fst up1 = Created 1 ∧ fst up2 = Created 2
  ∧ (path <$> Database.select_by_id 1 (rows (snd up2))) = Some "1700000000000.txt"
  ∧ (path <$> Database.select_by_id 2 (rows (snd up2))) = Some "1700000000000.txt"
  ∧ fst (BlobStorage.get_blob defaults (at_time 1700000000009) "1" (snd up1))
    = {| status := 200;
         body := FileResponse "text/plain; charset=utf-8" (bytes_of "first") |}
  ∧ fst (BlobStorage.get_blob defaults (at_time 1700000000009) "1" (snd up2))
    = {| status := 200;
         body := FileResponse "text/plain; charset=utf-8" (bytes_of "second") |}.
Proof. split_and!; reflexivity. Qed.

(** C3 fails on the code.  [parseInt] reads the longest numeric prefix, so
    the fractional id [1.5] (and [12abc], and [1e3]) passes the validation
    as the integer in front: GET and DELETE /blob/1.5 behave as on
    /blob/1, looking the row up, serving and deleting the blob. *)
Theorem C3_fractional_id_is_read_as_its_integer_prefix :
  Js.parseInt "1.5" = Js.Num 1
  ∧ BlobStorage.invalid_id (Js.parseInt "1.5") = false
  ∧ (∀ o env w,
       BlobStorage.get_blob o env "1.5" w = BlobStorage.get_blob o env "1" w
       ∧ BlobStorage.delete_blob o env "1.5" w
         = BlobStorage.delete_blob o env "1" w)
  ∧ fst (BlobStorage.get_blob defaults (at_time 0) "1.5" stored_world)
    = {| status := 200;
         body := FileResponse "text/plain; charset=utf-8" (bytes_of "hello") |}
  ∧ trace (snd (BlobStorage.delete_blob defaults (at_time 0) "1.5" stored_world))
    = [SqlGet 1; FsUnlink ["srv"; "uploads"; "1700000000000.txt"]; SqlDelete 1]
  ∧ rows (snd (BlobStorage.delete_blob defaults (at_time 0) "1.5" stored_world))
    = [].
Proof. split_and!; try reflexivity. intros o env w. split; reflexivity. Qed.

(** * Further properties of the handlers *)

(** ** Identifiers *)

Lemma invalid_id_spec n :
  BlobStorage.invalid_id n = true ↔ n = Js.NaN ∨ ∃ z, n = Js.Num z ∧ z ≤ 0.
Proof.
  unfold BlobStorage.invalid_id. destruct n as [|z]; simpl.
  - split; [by left|done].
  - rewrite orb_false_r, Z.leb_le. split.
    + intros H. right. by exists z.
    + by intros [?|(? & [= <-] & ?)].
Qed.

Lemma get_blob_valid_is_not_InvalidId o env param w :
  BlobStorage.invalid_id (Js.parseInt param) = false →
  fst (BlobStorage.get_blob o env param w) ≠ InvalidId.
Proof.
  intros H. unfold BlobStorage.get_blob. rewrite H. run.
  destruct (fault env OpGet); simpl; [done|].
  destruct (Database.select_by_id _ _); simpl; [|done].
  destruct (fault env OpAccess); simpl; [done|].
  destruct (files w !! _); simpl; [|done].
  destruct (existsb _ _); simpl; [done|].
  destruct (fault env OpSendFile); simpl; [done|].
  by destruct (files w !! _).
Qed.

Lemma delete_blob_valid_is_not_InvalidId o env param w :
  BlobStorage.invalid_id (Js.parseInt param) = false →
  fst (BlobStorage.delete_blob o env param w) ≠ InvalidId.
Proof.
  intros H. unfold BlobStorage.delete_blob. rewrite H. run.
  destruct (fault env OpGet); simpl; [done|].
  destruct (Database.select_by_id _ _); simpl; [|done].
  destruct (fault env OpUnlink); simpl; [done|].
  destruct (files w !! _); simpl; [|done].
  destruct (fault env OpDelete); simpl; [done|].
  by destruct (0 <? _)%nat.
Qed.

(** X1. For every parameter that [parseInt] reads as NaN or as an integer
    below 2^53 in magnitude (where the Number is that integer itself),
    GET and DELETE /blob/:id answer [InvalidId] exactly when the reading
    is NaN, zero or negative; in that case nothing is called and nothing
    changes, the trace included. *)
Theorem invalid_id_on_exactly_read_parameters
    (o : BlobStorageOptions) (env : Env) (param : string) (w : World) :
  (Js.parseInt param = Js.NaN
   ∨ ∃ z, Js.parseInt param = Js.Num z ∧ Z.abs z < 2 ^ 53) →
  let invalid :=
    Js.parseInt param = Js.NaN ∨ ∃ z, Js.parseInt param = Js.Num z ∧ z ≤ 0 in
  (fst (BlobStorage.get_blob o env param w) = InvalidId ↔ invalid)
  ∧ (fst (BlobStorage.delete_blob o env param w) = InvalidId ↔ invalid)
  ∧ (invalid →
       snd (BlobStorage.get_blob o env param w) = w
       ∧ snd (BlobStorage.delete_blob o env param w) = w).
Proof.
  intros _ invalid. unfold invalid. rewrite <-invalid_id_spec.
  destruct (BlobStorage.invalid_id (Js.parseInt param)) eqn:E.
  - destruct (invalid_id_touches_nothing o env param w E) as [-> ->]. done.
  - pose proof (get_blob_valid_is_not_InvalidId o env param w E).
    pose proof (delete_blob_valid_is_not_InvalidId o env param w E).
    split_and!; try done; split; done.
Qed.

Lemma invalid_id_witness :
  BlobStorage.get_blob defaults (at_time 0) "-3" stored_world
    = (InvalidId, stored_world)
  ∧ BlobStorage.delete_blob defaults (at_time 0) "abc" stored_world
    = (InvalidId, stored_world).
Proof.
  assert (Js.parseInt "-3" = Js.NaN
          ∨ ∃ z, Js.parseInt "-3" = Js.Num z ∧ Z.abs z < 2 ^ 53) as Hr1.
  { right. exists (-3). split; [reflexivity|done]. }
  assert (Js.parseInt "abc" = Js.NaN
          ∨ ∃ z, Js.parseInt "abc" = Js.Num z ∧ Z.abs z < 2 ^ 53) as Hr2.
  { left. reflexivity. }
  pose proof (invalid_id_on_exactly_read_parameters defaults (at_time 0)
    "-3" stored_world Hr1) as (H1 & _ & H2).
  pose proof (invalid_id_on_exactly_read_parameters defaults (at_time 0)
    "abc" stored_world Hr2) as (_ & H3 & H4).
  simpl in *. split.
  - apply injective_projections; simpl;
      [apply H1|apply H2]; right; exists (-3); done.
  - apply injective_projections; simpl; [apply H3|apply H4]; by left.
Defined.

(** ** Unknown ids *)

Lemma no_row_is_NotFound o env param i w :
  Js.parseInt param = Js.Num i → 0 < i →
  fault env OpGet = None →
  Database.select_by_id i (rows w) = None →
  BlobStorage.get_blob o env param w = (NotFound, add_event (SqlGet i) w)
  ∧ BlobStorage.delete_blob o env param w = (NotFound, add_event (SqlGet i) w).
Proof.
  intros Hp Hi Hg Hsel.
  unfold BlobStorage.get_blob, BlobStorage.delete_blob.
  rewrite (valid_id_num _ _ Hp Hi), Hp. run. rewrite Hg. simpl.
  by rewrite Hsel.
Qed.

(** X2. For a valid id that names no row, GET and DELETE /blob/:id answer
    [NotFound]; each makes the one lookup and nothing else, so that DELETE
    unlinks no file and removes no row. *)
Theorem unknown_id_is_not_found_and_nothing_is_removed
    (o : BlobStorageOptions) (env : Env) (param : string) (i : Z) (w : World) :
  Js.parseInt param = Js.Num i → 0 < i →
  fault env OpGet = None →
  Database.select_by_id i (rows w) = None →
  let g := BlobStorage.get_blob o env param w in
  let d := BlobStorage.delete_blob o env param w in
  fst g = NotFound ∧ fst d = NotFound
  ∧ rows (snd d) = rows w ∧ seq (snd d) = seq w ∧ files (snd d) = files w
  ∧ trace (snd g) = trace w ++ [SqlGet i]
  ∧ trace (snd d) = trace w ++ [SqlGet i].
Proof.
  intros Hp Hi Hg Hsel.
  destruct (no_row_is_NotFound o env param i w Hp Hi Hg Hsel) as [-> ->].
  done.
Qed.

Lemma unknown_id_witness :
  fst (BlobStorage.get_blob defaults (at_time 0) "99999" stored_world) = NotFound
  ∧ rows (snd (BlobStorage.delete_blob defaults (at_time 0) "99999" stored_world))
    = [orphan_row].
Proof.
  pose proof (unknown_id_is_not_found_and_nothing_is_removed defaults
    (at_time 0) "99999" 99999 stored_world eq_refl eq_refl eq_refl eq_refl)
    as (H1 & _ & H2 & _).
  split; [exact H1|exact H2].
Defined.

(** ** Removal, continued *)

(** What a DELETE answered with success has done. *)
Lemma delete_blob_deleted o env param w :
  fst (BlobStorage.delete_blob o env param w) = Deleted →
  ∃ i row,
    Js.parseInt param = Js.Num i ∧ 0 < i
    ∧ Database.select_by_id i (rows w) = Some row
    ∧ is_Some (files w !! Js.path_join (storageDir o) (path row))
    ∧ rows (snd (BlobStorage.delete_blob o env param w))
      = List.filter (λ row, negb (bool_decide (id row = i))) (rows w)
    ∧ seq (snd (BlobStorage.delete_blob o env param w)) = seq w
    ∧ files (snd (BlobStorage.delete_blob o env param w))
      = delete (Js.path_join (storageDir o) (path row)) (files w).
Proof.
  unfold BlobStorage.delete_blob.
  destruct (Js.parseInt param) as [|i] eqn:Hp; [done|].
  unfold BlobStorage.invalid_id. simpl. rewrite orb_false_r.
  destruct (i <=? 0) eqn:Hi; [done|]. apply Z.leb_gt in Hi.
  run. destruct (fault env OpGet); simpl; [done|].
  destruct (Database.select_by_id i (rows w)) as [row|] eqn:Hsel; simpl; [|done].
  destruct (fault env OpUnlink); simpl; [done|].
  destruct (files w !! _) as [b|] eqn:Hb; simpl; [|done].
  destruct (fault env OpDelete); simpl; [done|].
  destruct (0 <? _)%nat; simpl; [|done].
  intros _. exists i, row. split_and!; done.
Qed.

(** X3. After a DELETE /blob/:id answered with success, GET and DELETE of
    the same id answer [NotFound]: a removed blob does not come back. *)
Theorem removed_blob_is_not_found_afterwards
    (o : BlobStorageOptions) (env env' : Env) (param : string) (w : World) :
  fst (BlobStorage.delete_blob o env param w) = Deleted →
  fault env' OpGet = None →
  let w' := snd (BlobStorage.delete_blob o env param w) in
  fst (BlobStorage.get_blob o env' param w') = NotFound
  ∧ fst (BlobStorage.delete_blob o env' param w') = NotFound.
Proof.
  intros Hd Hg w'.
  destruct (delete_blob_deleted o env param w Hd)
    as (i & row & Hp & Hi & _ & _ & Hrows & _).
  fold w' in Hrows. clearbody w'.
  assert (Database.select_by_id i (rows w') = None) as Hnone
    by (rewrite Hrows; apply select_by_id_filter_same).
  destruct (no_row_is_NotFound o env' param i w' Hp Hi Hg Hnone) as [-> ->].
  done.
Qed.

Lemma removed_blob_witness :
  fst (BlobStorage.get_blob defaults (at_time 1) "1"
         (snd (BlobStorage.delete_blob defaults (at_time 0) "1" stored_world)))
  = NotFound.
Proof.
  pose proof (removed_blob_is_not_found_afterwards defaults (at_time 0)
    (at_time 1) "1" stored_world eq_refl eq_refl) as [H _].
  exact H.
Defined.

(** X4. A DELETE /blob/:id answered with success removes the rows of that
    id and the one file the row named, and nothing else: every other id
    still selects its row, every other path still has its file, and the
    id counter is not wound back. *)
Theorem successful_delete_removes_one_blob_only
    (o : BlobStorageOptions) (env : Env) (param : string) (w : World) :
  fst (BlobStorage.delete_blob o env param w) = Deleted →
  let w' := snd (BlobStorage.delete_blob o env param w) in
  ∃ i row,
    Js.parseInt param = Js.Num i
    ∧ Database.select_by_id i (rows w) = Some row
    ∧ Database.select_by_id i (rows w') = None
    ∧ files w' !! Js.path_join (storageDir o) (path row) = None
    ∧ (∀ j, j ≠ i →
         Database.select_by_id j (rows w') = Database.select_by_id j (rows w))
    ∧ (∀ q, q ≠ Js.path_join (storageDir o) (path row) →
         files w' !! q = files w !! q)
    ∧ seq w' = seq w.
Proof.
  intros Hd w'.
  destruct (delete_blob_deleted o env param w Hd)
    as (i & row & Hp & Hi & Hsel & _ & Hrows & Hseq & Hfiles).
  fold w' in Hrows, Hseq, Hfiles. clearbody w'.
  exists i, row. rewrite Hrows, Hfiles. split_and!; try done.
  - apply select_by_id_filter_same.
  - apply lookup_delete_eq.
  - intros j Hj. by apply select_by_id_filter_other.
  - intros q Hq. by apply lookup_delete_ne.
Qed.

Lemma successful_delete_witness :
  ∃ i row,
    Js.parseInt "1" = Js.Num i
    ∧ Database.select_by_id i (rows two_blobs) = Some row
    ∧ Database.select_by_id i
        (rows (snd (BlobStorage.delete_blob defaults (at_time 0) "1" two_blobs)))
      = None
    ∧ files (snd (BlobStorage.delete_blob defaults (at_time 0) "1" two_blobs))
        !! Js.path_join (storageDir defaults) (path row) = None
    ∧ (∀ j, j ≠ i →
         Database.select_by_id j
           (rows (snd (BlobStorage.delete_blob defaults (at_time 0) "1" two_blobs)))
         = Database.select_by_id j (rows two_blobs))
    ∧ (∀ q, q ≠ Js.path_join (storageDir defaults) (path row) →
         files (snd (BlobStorage.delete_blob defaults (at_time 0) "1" two_blobs))
           !! q = files two_blobs !! q)
    ∧ seq (snd (BlobStorage.delete_blob defaults (at_time 0) "1" two_blobs))
      = seq two_blobs.
Proof.
  exact (successful_delete_removes_one_blob_only defaults (at_time 0) "1"
           two_blobs eq_refl).
Defined.

(** X5. A DELETE /blob/:id that is not answered with success never
    removes a row, and it leaves the files as they were unless the DELETE
    statement itself failed after the file had been unlinked. *)
Theorem failed_delete_keeps_every_row
    (o : BlobStorageOptions) (env : Env) (param : string) (w : World) :
  fst (BlobStorage.delete_blob o env param w) ≠ Deleted →
  let w' := snd (BlobStorage.delete_blob o env param w) in
  rows w' = rows w ∧ seq w' = seq w
  ∧ (fault env OpDelete = None → files w' = files w).
Proof.
  intros Hd. unfold BlobStorage.delete_blob in *.
  destruct (BlobStorage.invalid_id _); [done|]. run.
  destruct (fault env OpGet); simpl in *; [done|].
  destruct (Database.select_by_id _ _) as [row|] eqn:Hsel; simpl in *; [|done].
  destruct (fault env OpUnlink); simpl in *; [done|].
  destruct (files w !! _); simpl in *; [|done].
  destruct (fault env OpDelete); simpl in *; [done|].
  pose proof (filter_found_is_shorter _ _ _ Hsel) as Hlt.
  destruct (0 <? _)%nat eqn:Hc; simpl in *; [done|].
  apply Nat.ltb_ge in Hc. lia.
Qed.

Lemma failed_delete_witness :
  rows (snd (BlobStorage.delete_blob defaults (failing OpUnlink "EPERM") "1"
               stored_world)) = [orphan_row]
  ∧ files (snd (BlobStorage.delete_blob defaults (failing OpUnlink "EPERM") "1"
               stored_world)) = files stored_world.
Proof.
  pose proof (failed_delete_keeps_every_row defaults (failing OpUnlink "EPERM")
    "1" stored_world) as H.
  destruct H as (H1 & _ & H2); [discriminate|].
  split; [exact H1|by apply H2].
Defined.

(** ** Upload, continued *)

(** X6. An upload that carries no file, or whose declared type the filter
    refuses, is answered 400 before anything is called: no file is
    written, no row is inserted and the trace is unchanged. *)
Theorem refused_upload_calls_nothing
    (o : BlobStorageOptions) (env : Env) (part : option Part) (w : World) :
  part = None
  ∨ (∃ file, part = Some file ∧ allowedMimeTypes o ≠ []
             ∧ mimetype file ∉ allowedMimeTypes o) →
  snd (BlobStorage.post_upload o env part w) = w
  ∧ status (fst (BlobStorage.post_upload o env part w)) = 400.
Proof.
  intros [->|(file & -> & Hne & Hnin)]; [done|].
  destruct (BlobStorage.fileFilter o file) as [e|] eqn:Hf.
  - apply fileFilter_Some in Hf as Hm. run. rewrite Hf, Hm. done.
  - apply fileFilter_None in Hf as [?|?]; done.
Qed.

Lemma refused_upload_witness :
  snd (BlobStorage.post_upload png_only (at_time 0)
         (Some (twenty_bytes "image/PNG")) stored_world) = stored_world
  ∧ snd (BlobStorage.post_upload png_only (at_time 0) None stored_world)
    = stored_world.
Proof.
  split.
  - apply (refused_upload_calls_nothing png_only (at_time 0)
      (Some (twenty_bytes "image/PNG")) stored_world).
    right. eexists. split_and!; [done|done|].
    intros H. inversion H as [|? ? ? H']; inversion H'.
  - apply (refused_upload_calls_nothing png_only (at_time 0) None stored_world).
    by left.
Defined.

(** The effect of POST /upload on the table, by its answer. *)
Lemma post_upload_table o env part w :
  let r := fst (BlobStorage.post_upload o env part w) in
  let w' := snd (BlobStorage.post_upload o env part w) in
  (created_id r = None ∧ rows w' = rows w ∧ seq w' = seq w)
  ∨ (∃ file, part = Some file
       ∧ r = Created (Database.next_rowid w)
       ∧ rows w' = rows w ++
           [{| id := Database.next_rowid w;
               original_name := originalname file;
               mime_type := mimetype file;
               path := BlobStorage.storage_filename env file;
               upload_timestamp := Js.toISOString (new_date env) |}]
       ∧ seq w' = Database.next_rowid w).
Proof.
  run. destruct part as [file|]; simpl; [|by left].
  destruct (BlobStorage.fileFilter o file) as [e|]; simpl.
  { destruct (bool_decide _); by left. }
  destruct (fault env OpWrite); simpl; [by left|].
  destruct (BlobStorage.over_limit o env file); simpl; [by left|].
  destruct (fault env OpInsert); simpl; [by left|].
  right. by exists file.
Qed.

(** X7. POST /upload changes the table exactly when it answers with an
    id.  Then it has appended one row that carries that id, the original
    name and the declared type as the client sent them, the stored name
    and the time of the insert; the id counter is that id, and a working
    GET /files lists the row. *)
Theorem upload_appends_its_row_exactly_when_it_answers_an_id
    (o : BlobStorageOptions) (env env' : Env) (part : option Part) (w : World) :
  let r := fst (BlobStorage.post_upload o env part w) in
  let w' := snd (BlobStorage.post_upload o env part w) in
  ((∀ i, r ≠ Created i) → rows w' = rows w ∧ seq w' = seq w)
  ∧ (∀ i, r = Created i →
       ∃ file row,
         part = Some file
         ∧ row = {| id := i; original_name := originalname file;
                    mime_type := mimetype file;
                    path := BlobStorage.storage_filename env file;
                    upload_timestamp := Js.toISOString (new_date env) |}
         ∧ rows w' = rows w ++ [row]
         ∧ seq w' = i
         ∧ (fault env' OpAll = None →
              ∃ listed,
                fst (BlobStorage.get_files env' w')
                  = {| status := 200; body := RowsResponse listed |}
                ∧ row ∈ listed)).
Proof.
  intros r w'.
  pose proof (post_upload_table o env part w) as H. cbv zeta in H.
  fold r in H. fold w' in H. clearbody r w'.
  destruct H as [(Hc & Hrows & Hseq)|(file & -> & Hr & Hrows & Hseq)].
  - split; [done|]. intros i Hi. rewrite Hi in Hc. done.
  - split; [intros Hne; by destruct (Hne _ Hr)|].
    intros i Hi. rewrite Hr in Hi. injection Hi as <-.
    eexists file, _. split_and!; [done|done|exact Hrows|exact Hseq|].
    intros Hf. destruct (get_files_sorted env' w' Hf) as (listed & Hl & Hperm & _).
    exists listed. split; [done|]. rewrite Hperm, Hrows.
    apply elem_of_app. right. apply list_elem_of_here.
Qed.

Lemma upload_appends_its_row_witness :
  rows (snd (BlobStorage.post_upload defaults (failing OpInsert "SQLITE_FULL")
               (Some (a_txt "hello" "text/plain")) stored_world))
  = [orphan_row]
  ∧ ∃ file row,
      Some (a_txt "hello" "application/x-custom") = Some file
      ∧ row = {| id := 2; original_name := originalname file;
                 mime_type := mimetype file;
                 path := BlobStorage.storage_filename (at_time 1700000000007) file;
                 upload_timestamp := Js.toISOString 1700000000007 |}
      ∧ rows (snd (BlobStorage.post_upload defaults (at_time 1700000000007)
                     (Some (a_txt "hello" "application/x-custom")) stored_world))
        = [orphan_row; row].
Proof.
  split.
  - pose proof (upload_appends_its_row_exactly_when_it_answers_an_id defaults
      (failing OpInsert "SQLITE_FULL") (at_time 0)
      (Some (a_txt "hello" "text/plain")) stored_world) as [H _].
    apply H. intros i. discriminate.
  - pose proof (upload_appends_its_row_exactly_when_it_answers_an_id defaults
      (at_time 1700000000007) (at_time 0)
      (Some (a_txt "hello" "application/x-custom")) stored_world) as [_ H].
    destruct (H 2 eq_refl) as (file & row & H1 & H2 & H3 & _).
    exists file, row. split_and!; [exact H1|exact H2|exact H3].
Defined.

(** X8. Every id POST /upload hands out is positive, names no row that
    was in the table before, and is accepted again by the validation of
    GET and DELETE /blob/:id when it comes back written in decimal. *)
Theorem handed_out_id_is_fresh_and_valid
    (o : BlobStorageOptions) (env : Env) (part : option Part) (w : World) (i : Z) :
  fst (BlobStorage.post_upload o env part w) = Created i →
  0 < i
  ∧ Database.select_by_id i (rows w) = None
  ∧ seq w < i
  ∧ Js.parseInt (Js.Number_toString i) = Js.Num i
  ∧ BlobStorage.invalid_id (Js.parseInt (Js.Number_toString i)) = false.
Proof.
  intros Hr.
  destruct (post_upload_table o env part w)
    as [(Hc & _)|(file & -> & Hr' & _)].
  { rewrite Hr in Hc. done. }
  rewrite Hr' in Hr. injection Hr as <-.
  destruct (next_rowid_fresh w) as [Hpos Hfresh].
  pose proof (parseInt_Number_toString _ Hpos) as Hparse.
  split_and!; [done|done| |done|by eapply valid_id_num].
  unfold Database.next_rowid. lia.
Qed.

Lemma handed_out_id_witness :
  0 < 2 ∧ Database.select_by_id 2 (rows stored_world) = None
  ∧ seq stored_world < 2
  ∧ Js.parseInt (Js.Number_toString 2) = Js.Num 2
  ∧ BlobStorage.invalid_id (Js.parseInt (Js.Number_toString 2)) = false.
Proof.
  exact (handed_out_id_is_fresh_and_valid defaults (at_time 1700000000007)
           (Some (a_txt "hello" "text/plain")) stored_world 2 eq_refl).
Defined.

(** ** Stored names, continued *)

Lemma Number_toString_no_dot z :
  Forall (λ c, is_dot c = false) (chars (Js.Number_toString z)).
Proof.
  destruct (Number_toString_shape z) as (c & t & -> & Hc & Ht).
  simpl. constructor.
  - destruct Hc as [Hc| ->]; [|done].
    by destruct (decimal_plain c Hc) as (_ & _ & _ & _ & _ & _ & ?).
  - eapply Forall_impl; [exact Ht|]. intros x Hx.
    by destruct (decimal_plain x Hx) as (_ & _ & _ & _ & _ & _ & ?).
Qed.

(** A numeral followed by an extension splits at its first dot. *)
Lemma numeral_extension_split n e :
  Forall (λ c, is_dot c = false) (chars n) → extension e →
  span (λ c, negb (is_dot c)) (chars (n +:+ e)) = (chars n, chars e).
Proof.
  intros Hn He. rewrite chars_app.
  assert (Forall (λ c, negb (is_dot c) = true) (chars n)) as Hn'
    by (eapply Forall_impl; [exact Hn|by intros c ->]).
  destruct He as [->|(l & -> & _)]; simpl.
  - rewrite app_nil_r. by apply span_all.
  - by apply span_stop.
Qed.

Lemma storage_filename_tick env1 env2 file1 file2 :
  BlobStorage.storage_filename env1 file1
  = BlobStorage.storage_filename env2 file2 →
  date_now env1 = date_now env2.
Proof.
  unfold BlobStorage.storage_filename. intros H.
  apply (f_equal (λ s, span (λ c, negb (is_dot c)) (chars s))) in H.
  rewrite !numeral_extension_split in H
    by (apply Number_toString_no_dot || apply extname_extension).
  injection H as H _.
  apply (f_equal of_chars) in H. rewrite !of_chars_chars in H.
  unfold Js.Number_toString in H. by apply (inj pretty) in H.
Qed.

(** X9. Uploads whose filename callbacks read different milliseconds get
    different stored names, whatever their original names; and they get
    the same stored name exactly when they read the same millisecond and
    their original names have the same extension. *)
Theorem stored_names_differ_exactly_by_tick_and_extension
    (env1 env2 : Env) (file1 file2 : Part) :
  (date_now env1 ≠ date_now env2 →
     BlobStorage.storage_filename env1 file1
     ≠ BlobStorage.storage_filename env2 file2)
  ∧ (BlobStorage.storage_filename env1 file1
     = BlobStorage.storage_filename env2 file2
     ↔ date_now env1 = date_now env2
       ∧ Js.extname (originalname file1) = Js.extname (originalname file2)).
Proof.
  split.
  - intros Hne Heq. by apply Hne, (storage_filename_tick _ _ file1 file2).
  - split.
    + intros Heq. pose proof (storage_filename_tick _ _ _ _ Heq) as Ht.
      split; [done|]. unfold BlobStorage.storage_filename in Heq.
      rewrite Ht in Heq. by apply (inj (String.app _)) in Heq.
    + intros [Ht He]. unfold BlobStorage.storage_filename. by rewrite Ht, He.
Qed.

Lemma stored_names_witness :
  BlobStorage.storage_filename (at_time 1700000000000) (a_txt "x" "text/plain")
  ≠ BlobStorage.storage_filename (at_time 1700000000001) (a_txt "x" "text/plain").
Proof.
  pose proof (stored_names_differ_exactly_by_tick_and_extension
    (at_time 1700000000000) (at_time 1700000000001)
    (a_txt "x" "text/plain") (a_txt "x" "text/plain")) as [H _].
  apply H. discriminate.
Defined.

(** X10. The stored name has the extension of the original name, and a
    name without extension is stored as the bare clock reading. *)
Theorem stored_name_keeps_the_extension (env : Env) (file : Part) :
  Js.extname (BlobStorage.storage_filename env file)
  = Js.extname (originalname file)
  ∧ (Js.extname (originalname file) = "" →
       BlobStorage.storage_filename env file
       = Js.Number_toString (date_now env)).
Proof.
  split; [apply storage_filename_extname|].
  intros He. unfold BlobStorage.storage_filename. rewrite He.
  generalize (Js.Number_toString (date_now env)).
  induction s as [|c s IH]; [done|].
  change (String c (s +:+ "") = String c s). by rewrite IH.
Qed.

Lemma stored_name_extension_witness :
  BlobStorage.storage_filename (at_time 1700000000000) passwd = "1700000000000".
Proof.
  pose proof (stored_name_keeps_the_extension (at_time 1700000000000) passwd)
    as [_ H].
  apply H. reflexivity.
Defined.

(** ** Blobs do not disturb each other *)

(** The answer of GET /blob/:id is a function of the row the id selects
    and of the file that row names. *)
Lemma get_blob_depends_on_row_and_file o env param i w1 w2 :
  Js.parseInt param = Js.Num i →
  Database.select_by_id i (rows w1) = Database.select_by_id i (rows w2) →
  (∀ row, Database.select_by_id i (rows w1) = Some row →
     files w1 !! Js.path_join (storageDir o) (path row)
     = files w2 !! Js.path_join (storageDir o) (path row)) →
  fst (BlobStorage.get_blob o env param w1)
  = fst (BlobStorage.get_blob o env param w2).
Proof.
  intros Hp Hsel Hfile. unfold BlobStorage.get_blob. rewrite Hp.
  destruct (BlobStorage.invalid_id _); [done|]. run.
  destruct (fault env OpGet); simpl; [done|]. rewrite <-Hsel.
  destruct (Database.select_by_id i (rows w1)) as [row|]; simpl; [|done].
  specialize (Hfile row eq_refl).
  destruct (fault env OpAccess); simpl; [done|]. rewrite <-Hfile.
  destruct (files w1 !! _) eqn:E; simpl; [|done].
  destruct (existsb _ _); simpl; [done|].
  destruct (fault env OpSendFile); simpl; [done|].
  by rewrite <-Hfile, E.
Qed.

Lemma select_by_id_app_found i r extra row :
  Database.select_by_id i r = Some row →
  Database.select_by_id i (r ++ extra) = Some row.
Proof.
  unfold Database.select_by_id. induction r as [|x r IH]; simpl; [done|].
  by destruct (bool_decide (id x = i)).
Qed.

(** X11. An upload whose filename callback reads another millisecond than
    the one an existing blob was stored under does not change what GET
    /blob/:id answers for that blob, whether the upload succeeds, is
    refused or fails half way. *)
Theorem upload_at_another_tick_keeps_earlier_blobs
    (o : BlobStorageOptions) (env env0 env' : Env) (part : option Part)
    (file0 : Part) (param : string) (i : Z) (row : BlobMetadata) (w : World) :
  Js.parseInt param = Js.Num i →
  Database.select_by_id i (rows w) = Some row →
  path row = BlobStorage.storage_filename env0 file0 →
  date_now env0 ≠ date_now env →
  fst (BlobStorage.get_blob o env' param
         (snd (BlobStorage.post_upload o env part w)))
  = fst (BlobStorage.get_blob o env' param w).
Proof.
  intros Hp Hsel Hpath Htick.
  apply (get_blob_depends_on_row_and_file o env' param i _ w Hp).
  - destruct (post_upload_table o env part w)
      as [(_ & -> & _)|(file & _ & _ & -> & _)]; [done|].
    rewrite Hsel. by apply select_by_id_app_found.
  - intros row' Hrow'. destruct part as [file|]; [|done].
    apply post_upload_writes_one_path.
    assert (Database.select_by_id i
              (rows (snd (BlobStorage.post_upload o env (Some file) w)))
            = Some row) as Hsel'.
    { destruct (post_upload_table o env (Some file) w)
        as [(_ & -> & _)|(f & _ & _ & -> & _)]; [done|].
      by apply select_by_id_app_found. }
    rewrite Hsel' in Hrow'. injection Hrow' as <-.
    rewrite Hpath, !storage_filename_in_storageDir.
    intros [= Heq%app_inv_head]. injection Heq as Heq.
    by apply storage_filename_tick in Heq.
Qed.

Lemma upload_at_another_tick_witness :
  fst (BlobStorage.get_blob defaults (at_time 5) "1"
         (snd (BlobStorage.post_upload defaults (at_time 1700000000001)
                 (Some (a_txt "other" "text/plain")) stored_world)))
  = fst (BlobStorage.get_blob defaults (at_time 5) "1" stored_world).
Proof.
  apply (upload_at_another_tick_keeps_earlier_blobs defaults
    (at_time 1700000000001) (at_time 1700000000000) (at_time 5)
    (Some (a_txt "other" "text/plain")) (a_txt "hello" "text/plain")
    "1" 1 orphan_row stored_world); [reflexivity..|discriminate].
Defined.

(** ** Whole runs: the ids *)

(** The effect of DELETE /blob/:id on the table. *)
Lemma delete_blob_table o env param w :
  let w' := snd (BlobStorage.delete_blob o env param w) in
  created_id (fst (BlobStorage.delete_blob o env param w)) = None
  ∧ seq w' = seq w
  ∧ (rows w' = rows w
     ∨ ∃ i, rows w'
            = List.filter (λ row, negb (bool_decide (id row = i))) (rows w)).
Proof.
  unfold BlobStorage.delete_blob.
  destruct (BlobStorage.invalid_id _); [by split_and!; [..|left]|]. run.
  destruct (fault env OpGet); simpl; [by split_and!; [..|left]|].
  destruct (Database.select_by_id _ _); simpl; [|by split_and!; [..|left]].
  destruct (fault env OpUnlink); simpl; [by split_and!; [..|left]|].
  destruct (files w !! _); simpl; [|by split_and!; [..|left]].
  destruct (fault env OpDelete); simpl; [by split_and!; [..|left]|].
  destruct (0 <? _)%nat; simpl; (split_and!; [done..|right; by eexists]).
Qed.

Lemma get_blob_creates_nothing o env param w :
  created_id (fst (BlobStorage.get_blob o env param w)) = None.
Proof.
  unfold BlobStorage.get_blob.
  destruct (BlobStorage.invalid_id _); [done|]. run.
  destruct (fault env OpGet); simpl; [done|].
  destruct (Database.select_by_id _ _); simpl; [|done].
  destruct (fault env OpAccess); simpl; [done|].
  destruct (files w !! _); simpl; [|done].
  destruct (existsb _ _); simpl; [done|].
  destruct (fault env OpSendFile); simpl; [done|].
  by destruct (files w !! _).
Qed.

(** What one request does to the table: nothing, or the removal of the
    rows of one id, or the insertion of one row under the next id, the
    last exactly when the answer hands out that id. *)
Lemma handle_table o env rq w :
  let r := fst (handle o env rq w) in
  let w' := snd (handle o env rq w) in
  (created_id r = None ∧ seq w' = seq w
   ∧ (rows w' = rows w
      ∨ ∃ i, rows w'
             = List.filter (λ row, negb (bool_decide (id row = i))) (rows w)))
  ∨ (∃ row, created_id r = Some (Database.next_rowid w)
       ∧ id row = Database.next_rowid w
       ∧ rows w' = rows w ++ [row]
       ∧ seq w' = Database.next_rowid w).
Proof.
  destruct rq as [part| |param|param]; simpl.
  - destruct (post_upload_table o env part w)
      as [(Hc & Hr & Hs)|(file & _ & Hc & Hr & Hs)].
    + left. split_and!; [done|done|by left].
    + right. eexists. rewrite Hc. split_and!; [done| |exact Hr|exact Hs]. done.
  - left. destruct (get_files_frame env w) as (Hr & Hs & _).
    split_and!; [|done|by left]. run. by destruct (fault env OpAll).
  - left. destruct (get_blob_frame o env param w) as (Hr & Hs & _).
    split_and!; [apply get_blob_creates_nothing|done|by left].
  - left. apply delete_blob_table.
Qed.

Lemma Forall_kept {A} (P : A → Prop) (f : A → bool) l :
  Forall P l → Forall P (List.filter f l).
Proof.
  induction 1 as [|x l Hx _ IH]; simpl; [constructor|].
  destruct (f x); [by constructor|done].
Qed.

Lemma NoDup_kept {A B} (g : A → B) (f : A → bool) l :
  NoDup (map g l) → NoDup (map g (List.filter f l)).
Proof.
  induction l as [|x l IH]; simpl; [done|].
  intros [Hx Hnd]%NoDup_cons. destruct (f x); simpl; [|by apply IH].
  apply NoDup_cons. split; [|by apply IH].
  intros Hin. apply Hx. clear -Hin.
  induction l as [|y l IH]; simpl in *; [done|].
  destruct (f y); simpl in *.
  - apply elem_of_cons in Hin as [->|Hin]; [left|right; by apply IH].
  - right. by apply IH.
Qed.

Lemma consistent_ids_max w :
  consistent_ids w → Database.next_rowid w = seq w + 1.
Proof.
  intros (_ & Hall & H0). unfold Database.next_rowid.
  assert (Database.max_rowid (rows w) ≤ seq w); [|lia].
  induction Hall as [|x r Hx _ IH]; simpl; lia.
Qed.

Lemma handle_consistent_ids o env rq w :
  consistent_ids w → consistent_ids (snd (handle o env rq w)).
Proof.
  intros Hc. pose proof (consistent_ids_max w Hc) as Hnext.
  destruct Hc as (Hnd & Hall & H0).
  destruct (handle_table o env rq w)
    as [(_ & Hs & [Hr|[i Hr]])|(row & _ & Hid & Hr & Hs)];
    unfold consistent_ids; rewrite Hr, Hs.
  - done.
  - split_and!; [by apply NoDup_kept|by apply Forall_kept|done].
  - rewrite Hnext in *. split_and!; [| |lia].
    + rewrite map_app. simpl. apply NoDup_app. split_and!; [done| |].
      * intros j (y & -> & Hy)%list_elem_of_fmap Hj.
        apply list_elem_of_singleton in Hj.
        rewrite Forall_forall in Hall. specialize (Hall y Hy). lia.
      * rewrite Hid. apply NoDup_singleton.
    + apply Forall_app. split.
      * eapply Forall_impl; [exact Hall|]. simpl. intros; lia.
      * constructor; [lia|constructor].
Qed.

(** X12. Starting from a table whose row ids are pairwise different,
    positive and not above the id counter (the empty table of a fresh
    service is one), every run of requests ends in such a table: no two
    rows ever share an id. *)
Theorem row_ids_stay_unique_over_every_run
    (o : BlobStorageOptions) (l : list (Env * Request)) (w : World) :
  consistent_ids w → consistent_ids (snd (serve o l w)).
Proof.
  revert w. induction l as [|[env rq] l IH]; intros w Hc; simpl; [done|].
  pose proof (handle_consistent_ids o env rq w Hc) as H1.
  unfold mbind, M_bind, mret, M_ret.
  destruct (handle o env rq w) as [r w1]. simpl in H1.
  specialize (IH w1 H1). by destruct (serve o l w1).
Qed.

Lemma row_ids_witness : consistent_ids (snd (serve defaults a_session init)).
Proof.
  apply row_ids_stay_unique_over_every_run.
  split_and!; [constructor|constructor|done].
Defined.

Lemma serve_created_ids o l : ∀ w,
  consistent_ids w →
  Forall (λ i, seq w < i) (created_ids (fst (serve o l w)))
  ∧ StronglySorted Z.lt (created_ids (fst (serve o l w))).
Proof.
  induction l as [|[env rq] l IH]; intros w Hc; simpl.
  { split; constructor. }
  pose proof (handle_consistent_ids o env rq w Hc) as H1.
  pose proof (consistent_ids_max w Hc) as Hnext.
  pose proof (handle_table o env rq w) as Ht. cbv zeta in Ht.
  unfold mbind, M_bind, mret, M_ret.
  destruct (handle o env rq w) as [r w1]. simpl in H1, Ht.
  destruct (IH w1 H1) as [Hall Hsorted].
  destruct (serve o l w1) as [rs w2]. simpl in *.
  unfold created_ids in *. simpl.
  destruct Ht as [(-> & Hs & _)|(row & -> & _ & _ & Hs)].
  - rewrite Hs in Hall. done.
  - rewrite Hs in Hall. split.
    + constructor; [lia|]. eapply Forall_impl; [exact Hall|]. simpl. lia.
    + by constructor.
Qed.

(** X13. Over every run of requests on a fresh service, removals
    included, the ids handed out by successful uploads are positive and
    strictly increasing in the order of the requests: an id is never
    handed out twice, not even after its blob was removed. *)
Theorem handed_out_ids_strictly_increase
    (o : BlobStorageOptions) (l : list (Env * Request)) :
  Forall (λ i, 0 < i) (created_ids (fst (serve o l init)))
  ∧ StronglySorted Z.lt (created_ids (fst (serve o l init)))
  ∧ NoDup (created_ids (fst (serve o l init))).
Proof.
  assert (consistent_ids init) as Hc
    by (split_and!; [constructor|constructor|done]).
  destruct (serve_created_ids o l init Hc) as [Hall Hsorted].
  split_and!; [done|done|].
  clear Hall. induction Hsorted as [|i rest _ IH Hi]; [constructor|].
  apply NoDup_cons. split; [|done].
  intros Hin. rewrite Forall_forall in Hi. specialize (Hi i Hin). lia.
Qed.

(** ** Whole runs: the files *)

(** A request leaves a file where there was one, or where an upload of
    this request put it. *)
Lemma handle_files o env rq w p :
  is_Some (files (snd (handle o env rq w)) !! p) →
  is_Some (files w !! p)
  ∨ ∃ file, p = storageDir o ++ [BlobStorage.storage_filename env file].
Proof.
  destruct rq as [part| |param|param]; simpl.
  - destruct part as [file|]; [|by left].
    destruct (decide (p = Js.path_join (storageDir o)
                            (BlobStorage.storage_filename env file))) as [->|Hp].
    + intros _. right. exists file. apply storage_filename_in_storageDir.
    + rewrite post_upload_writes_one_path by done. by left.
  - destruct (get_files_frame env w) as (_ & _ & ->). by left.
  - destruct (get_blob_frame o env param w) as (_ & _ & ->). by left.
  - intros H. left. revert H. unfold BlobStorage.delete_blob.
    destruct (BlobStorage.invalid_id _); [done|]. run.
    destruct (fault env OpGet); simpl; [done|].
    destruct (Database.select_by_id _ _); simpl; [|done].
    destruct (fault env OpUnlink); simpl; [done|].
    destruct (files w !! Js.path_join _ _) eqn:E; simpl; [|done].
    assert (∀ q, is_Some (delete q (files w) !! p) → is_Some (files w !! p))
      as Hdel.
    { intros q. destruct (decide (q = p)) as [->|Hq].
      - rewrite lookup_delete_eq. by intros [? ?].
      - by rewrite lookup_delete_ne. }
    destruct (fault env OpDelete); simpl; [apply Hdel|].
    destruct (0 <? _)%nat; simpl; apply Hdel.
Qed.

(** X14. No run of requests puts a file anywhere but directly into the
    storage directory: if every file of the world is a direct child of
    [storageDir] with a separator-free name before the run (as on a fresh
    service), so is every file after it, whatever names the clients sent. *)
Theorem files_stay_inside_the_storage_directory
    (o : BlobStorageOptions) (l : list (Env * Request)) (w : World) :
  inside (storageDir o) w → inside (storageDir o) (snd (serve o l w)).
Proof.
  revert w. induction l as [|[env rq] l IH]; intros w Hin; simpl; [done|].
  assert (inside (storageDir o) (snd (handle o env rq w))) as H1.
  { intros p Hp. destruct (handle_files o env rq w p Hp) as [Hw|[file ->]].
    - by apply Hin.
    - eexists. split; [done|].
      destruct (storage_filename_shape env file) as (c & t & -> & Hc & Ht).
      destruct (storage_filename_first_char c t Hc) as (Hs & _).
      simpl. by constructor. }
  unfold mbind, M_bind, mret, M_ret.
  destruct (handle o env rq w) as [r w1]. simpl in H1.
  specialize (IH w1 H1). by destruct (serve o l w1).
Qed.

Lemma files_stay_inside_witness :
  inside ["srv"; "uploads"] (snd (serve defaults a_session init)).
Proof.
  apply (files_stay_inside_the_storage_directory defaults a_session init).
  intros p [b Hb]. simpl in Hb. by rewrite lookup_empty in Hb.
Defined.

(** ** Whole runs: rows and their files *)

Lemma NoDup_map_eq {A B} (g : A → B) l x y :
  NoDup (map g l) → x ∈ l → y ∈ l → g x = g y → x = y.
Proof.
  induction l as [|z l IH]; simpl; [by intros _ ?%elem_of_nil|].
  intros [Hz Hnd]%NoDup_cons [->|Hx]%elem_of_cons [->|Hy]%elem_of_cons Hg.
  - done.
  - destruct Hz. rewrite Hg. apply list_elem_of_fmap. eauto.
  - destruct Hz. rewrite <-Hg. apply list_elem_of_fmap. eauto.
  - by apply IH.
Qed.

Lemma select_by_id_found i r row :
  Database.select_by_id i r = Some row → row ∈ r ∧ id row = i.
Proof.
  intros [Hin Hid%bool_decide_eq_true]%find_some. split; [|done].
  by apply list_elem_of_In.
Qed.

(** The effect of DELETE /blob/:id when the DELETE statement works. *)
Lemma delete_blob_effect o env param w :
  fault env OpDelete = None →
  let w' := snd (BlobStorage.delete_blob o env param w) in
  (rows w' = rows w ∧ files w' = files w)
  ∨ (∃ i row, Js.parseInt param = Js.Num i
       ∧ Database.select_by_id i (rows w) = Some row
       ∧ rows w' = List.filter (λ row, negb (bool_decide (id row = i))) (rows w)
       ∧ files w' = delete (Js.path_join (storageDir o) (path row)) (files w)).
Proof.
  intros Hf. unfold BlobStorage.delete_blob.
  destruct (Js.parseInt param) as [|i] eqn:Hp; [by left|].
  destruct (BlobStorage.invalid_id _); [by left|]. run.
  destruct (fault env OpGet); simpl; [by left|].
  destruct (Database.select_by_id _ _) as [row|] eqn:Hsel; simpl; [|by left].
  destruct (fault env OpUnlink); simpl; [by left|].
  destruct (files w !! _); simpl; [|by left].
  rewrite Hf. simpl. right.
  destruct (0 <? _)%nat; simpl; by exists i, row.
Qed.

Lemma stored_under_more o T T' w :
  (∀ t, t ∈ T → t ∈ T') → stored_under o T w → stored_under o T' w.
Proof.
  intros Hsub [Hnd Hrows]. split; [done|]. intros row Hrow.
  destruct (Hrows row Hrow) as [(env & file & Ht & Hp) Hfile].
  split; [|done]. exists env, file. auto.
Qed.

Lemma handle_stored_under o env rq w T :
  stored_under o T w →
  (is_delete rq = true → fault env OpDelete = None) →
  (∀ t, upload_tick (env, rq) = Some t → t ∉ T) →
  stored_under o (from_option (λ t, t :: T) T (upload_tick (env, rq)))
    (snd (handle o env rq w)).
Proof.
  intros Hinv Hdel Hfresh. pose proof Hinv as [Hnd Hrows].
  destruct rq as [[file|]| |param|param]; simpl.
  - (* an upload with a file *)
    specialize (Hfresh _ eq_refl).
    set (name := BlobStorage.storage_filename env file).
    assert (∀ row, row ∈ rows w → path row ≠ name) as Hother.
    { intros row Hrow Heq.
      destruct (Hrows row Hrow) as [(env0 & file0 & Ht & Hp) _].
      rewrite Hp in Heq. apply storage_filename_tick in Heq.
      rewrite Heq in Ht. by apply Hfresh. }
    assert (∀ row, row ∈ rows w →
      is_Some (files (snd (BlobStorage.post_upload o env (Some file) w))
                 !! (storageDir o ++ [path row]))) as Hkept.
    { intros row Hrow. rewrite post_upload_writes_one_path.
      - by apply Hrows.
      - rewrite storage_filename_in_storageDir.
        intros [= Heq]%app_inv_head. by apply (Hother row). }
    assert (∀ row, row ∈ rows w →
      ∃ env0 file0, date_now env0 ∈ date_now env :: T
        ∧ path row = BlobStorage.storage_filename env0 file0) as Hnames.
    { intros row Hrow.
      destruct (Hrows row Hrow) as [(env0 & file0 & Ht & Hp) _].
      exists env0, file0. split; [by right|done]. }
    pose proof (post_upload_table o env (Some file) w) as Ht. cbv zeta in Ht.
    destruct Ht as [(_ & Hr & _)|(f & [= <-] & Hc & Hr & _)].
    + split; rewrite Hr; [done|]. intros row Hrow. auto.
    + pose proof (post_upload_created o env file w _ Hc) as (_ & _ & Hfiles).
      split; rewrite Hr.
      * rewrite map_app. simpl. apply NoDup_app. split_and!; [done| |].
        -- intros x (row & -> & Hrow)%list_elem_of_fmap
             Hx%list_elem_of_singleton.
           by apply (Hother row).
        -- apply NoDup_singleton.
      * intros row [Hrow|Hrow%list_elem_of_singleton]%elem_of_app; [auto|].
        subst row. simpl. split.
        -- exists env, file. split; [by left|done].
        -- rewrite Hfiles. unfold name.
           rewrite storage_filename_in_storageDir, lookup_insert_eq. by eexists.
  - done.
  - destruct (get_files_frame env w) as (Hr & _ & Hf).
    split; rewrite Hr; [done|]. intros row Hrow. rewrite Hf. by apply Hrows.
  - destruct (get_blob_frame o env param w) as (Hr & _ & Hf).
    split; rewrite Hr; [done|]. intros row Hrow. rewrite Hf. by apply Hrows.
  - destruct (delete_blob_effect o env param w (Hdel eq_refl))
      as [[Hr Hf]|(i & gone & _ & Hsel & Hr & Hf)].
    + split; rewrite Hr; [done|]. intros row Hrow. rewrite Hf. by apply Hrows.
    + apply select_by_id_found in Hsel as [Hgone Hid].
      split; rewrite Hr; [by apply NoDup_kept|].
      intros row [Hrow Hkeep]%list_elem_of_In%filter_In.
      apply list_elem_of_In in Hrow.
      destruct (Hrows row Hrow) as [Hname Hfile]. split; [done|].
      destruct (Hrows gone Hgone) as [(env0 & file0 & _ & Hp) _].
      rewrite Hf, Hp, storage_filename_in_storageDir, <-Hp.
      rewrite lookup_delete_ne; [done|].
      intros [= Heq]%app_inv_head.
      assert (gone = row) as -> by by apply (NoDup_map_eq path (rows w)).
      apply negb_true_iff, bool_decide_eq_false in Hkeep. done.
Qed.

Lemma serve_stored_under o l : ∀ T w,
  stored_under o T w →
  NoDup (upload_ticks l) →
  (∀ t, t ∈ upload_ticks l → t ∉ T) →
  Forall (λ er, fault er.1 OpDelete = None) l →
  ∃ T', (∀ t, t ∈ T' → t ∈ T ∨ t ∈ upload_ticks l)
        ∧ stored_under o T' (snd (serve o l w)).
Proof.
  induction l as [|[env rq] l IH]; intros T w Hinv Hnd Hfresh Hdel; simpl.
  { exists T. split; [by left|done]. }
  apply Forall_cons in Hdel as [Hd Hdel]. simpl in Hd.
  unfold upload_ticks in *. simpl in Hnd, Hfresh. simpl.
  assert (stored_under o
            (from_option (λ t, t :: T) T (upload_tick (env, rq)))
            (snd (handle o env rq w))) as H1.
  { apply handle_stored_under; [done|done|]. intros t Ht. apply Hfresh.
    rewrite Ht. by left. }
  unfold mbind, M_bind, mret, M_ret.
  destruct (handle o env rq w) as [r w1]. simpl in H1.
  destruct (upload_tick (env, rq)) as [t|] eqn:Ht; simpl in *.
  - apply NoDup_cons in Hnd as [Hnew Hnd].
    destruct (IH (t :: T) w1 H1 Hnd) as (T' & Hsub & HT'); [|done|].
    + intros t' Ht' [->|Hin]%elem_of_cons; [done|].
      apply (Hfresh t'); [by right|done].
    + exists T'. split; [|by destruct (serve o l w1)].
      intros t' Ht'. destruct (Hsub t' Ht') as [[->|?]%elem_of_cons|?].
      * right. by left.
      * by left.
      * right. by right.
  - destruct (IH T w1 H1 Hnd Hfresh Hdel) as (T' & Hsub & HT').
    exists T'. split; [done|]. by destruct (serve o l w1).
Qed.

(** X15. On a fresh service, over every run of requests in which no two
    filename callbacks read the same millisecond and no DELETE statement
    fails, every row of the table has its file at the end: failed
    uploads, uploads that are too large, failed unlinks and removals of
    other blobs leave no row without content. *)
Theorem every_row_keeps_its_file
    (o : BlobStorageOptions) (l : list (Env * Request)) :
  NoDup (upload_ticks l) →
  Forall (λ er, fault er.1 OpDelete = None) l →
  no_orphan_row o (snd (serve o l init)).
Proof.
  intros Hnd Hdel.
  destruct (serve_stored_under o l [] init) as (T & _ & _ & Hrows);
    [|done| |done|].
  - split; [constructor|]. by intros row ?%elem_of_nil.
  - intros t _ ?%elem_of_nil. done.
  - intros row Hrow.
    destruct (Hrows row Hrow) as [(env & file & _ & Hp) Hfile].
    by rewrite Hp, storage_filename_in_storageDir, <-Hp.
Qed.

Lemma every_row_keeps_its_file_witness :
  no_orphan_row defaults (snd (serve defaults a_session init)).
Proof.
  apply every_row_keeps_its_file.
  - vm_compute. repeat (apply NoDup_cons_2; [by intros ?%list_elem_of_In; simpl in *; intuition discriminate|]).
    apply NoDup_nil_2.
  - repeat (apply Forall_cons_2; [reflexivity|]). apply Forall_nil_2.
Defined.

(** ** [class Database] on its own *)

Lemma filter_none_is_all i r :
  Database.select_by_id i r = None →
  List.filter (λ row, negb (bool_decide (id row = i))) r = r.
Proof.
  unfold Database.select_by_id. induction r as [|x r IH]; simpl; [done|].
  destruct (bool_decide (id x = i)); simpl; [done|].
  intros H. by rewrite IH.
Qed.

(** X16. [insertBlob], [getBlob] and [deleteBlob] compose as a store
    should: a working [insertBlob] hands back an id under which [getBlob]
    finds a row with exactly the three strings that were inserted; a
    [deleteBlob] of that id reports [true], after which [getBlob] finds
    nothing and a second [deleteBlob] reports [false]. *)
Theorem Database_insert_get_delete_round_trip
    (env e1 e2 e3 e4 : Env) (originalName mimeType filePath : string)
    (w : World) :
  fault env OpInsert = None → fault e1 OpGet = None →
  fault e2 OpDelete = None → fault e3 OpGet = None →
  fault e4 OpDelete = None →
  ∃ i row,
    let w1 := snd (Database.insertBlob env originalName mimeType filePath w) in
    let w2 := snd (Database.deleteBlob e2 i w1) in
    fst (Database.insertBlob env originalName mimeType filePath w) = Ok i
    ∧ fst (Database.getBlob e1 i w1) = Ok (Some row)
    ∧ id row = i ∧ original_name row = originalName
    ∧ mime_type row = mimeType ∧ path row = filePath
    ∧ fst (Database.deleteBlob e2 i w1) = Ok true
    ∧ fst (Database.getBlob e3 i w2) = Ok None
    ∧ fst (Database.deleteBlob e4 i w2) = Ok false
    ∧ rows w2 = rows w.
Proof.
  intros Hi Hg1 Hd2 Hg3 Hd4.
  destruct (next_rowid_fresh w) as [_ Hfresh].
  set (row := {| id := Database.next_rowid w; original_name := originalName;
                 mime_type := mimeType; path := filePath;
                 upload_timestamp := Js.toISOString (new_date env) |}).
  pose proof (select_by_id_last _ (rows w) row Hfresh eq_refl) as Hsel.
  assert (List.filter
            (λ r, negb (bool_decide (id r = Database.next_rowid w)))
            (rows w ++ [row]) = rows w) as Hfilter.
  { rewrite List.filter_app, (filter_none_is_all _ _ Hfresh). simpl.
    rewrite bool_decide_eq_true_2 by done. simpl. by rewrite app_nil_r. }
  exists (Database.next_rowid w), row. subst row.
  run. rewrite Hi. simpl. rewrite Hg1, Hd2. simpl.
  change (Database.next_rowid (add_event (SqlInsert originalName mimeType filePath) w))
    with (Database.next_rowid w).
  rewrite Hsel, Hfilter.
  rewrite Hg3, Hd4. simpl. rewrite Hfresh, (filter_none_is_all _ _ Hfresh).
  rewrite length_app, Nat.sub_diag. simpl.
  replace (length (rows w) + 1 - length (rows w))%nat with 1%nat by lia.
  done.
Qed.

Lemma Database_round_trip_witness :
  ∃ i row,
    fst (Database.insertBlob (at_time 7) "photo.jpg" "image/jpeg"
           "1640995200000.jpg" stored_world) = Ok i
    ∧ fst (Database.getBlob (at_time 8) i
             (snd (Database.insertBlob (at_time 7) "photo.jpg" "image/jpeg"
                     "1640995200000.jpg" stored_world))) = Ok (Some row)
    ∧ original_name row = "photo.jpg".
Proof.
  destruct (Database_insert_get_delete_round_trip (at_time 7) (at_time 8)
    (at_time 9) (at_time 10) (at_time 11) "photo.jpg" "image/jpeg"
    "1640995200000.jpg" stored_world eq_refl eq_refl eq_refl eq_refl eq_refl)
    as (i & row & H1 & H2 & _ & H3 & _).
  exists i, row. split_and!; [exact H1|exact H2|exact H3].
Defined.

(** X17. The flag of [deleteBlob] tells whether a row had the id: it is
    [true] exactly when [getBlob] would have found one, and when it is
    [false] the table is left as it was.  In both cases no row of that id
    remains, rows of other ids are kept and the id counter is untouched. *)
Theorem deleteBlob_reports_whether_a_row_existed
    (env : Env) (i : Z) (w : World) :
  fault env OpDelete = None →
  let w' := snd (Database.deleteBlob env i w) in
  fst (Database.deleteBlob env i w)
    = Ok (bool_decide (is_Some (Database.select_by_id i (rows w))))
  ∧ (Database.select_by_id i (rows w) = None → rows w' = rows w)
  ∧ Database.select_by_id i (rows w') = None
  ∧ (∀ j, j ≠ i →
       Database.select_by_id j (rows w') = Database.select_by_id j (rows w))
  ∧ seq w' = seq w.
Proof.
  intros Hf. run. rewrite Hf. simpl. split_and!.
  - do 2 f_equal.
    destruct (Database.select_by_id i (rows w)) as [row|] eqn:Hsel.
    + pose proof (filter_found_is_shorter _ _ _ Hsel).
      rewrite bool_decide_eq_true_2 by by eexists. apply Nat.ltb_lt. lia.
    + rewrite (filter_none_is_all _ _ Hsel), Nat.sub_diag.
      rewrite bool_decide_eq_false_2; [done|]. by intros [? ?].
  - intros Hsel. by rewrite (filter_none_is_all _ _ Hsel).
  - apply select_by_id_filter_same.
  - intros j Hj. by apply select_by_id_filter_other.
  - done.
Qed.

Lemma deleteBlob_witness :
  fst (Database.deleteBlob (at_time 0) 1 two_blobs) = Ok true
  ∧ fst (Database.deleteBlob (at_time 0) 7 two_blobs) = Ok false.
Proof.
  pose proof (deleteBlob_reports_whether_a_row_existed (at_time 0) 1 two_blobs
    eq_refl) as [H1 _].
  pose proof (deleteBlob_reports_whether_a_row_existed (at_time 0) 7 two_blobs
    eq_refl) as [H7 _].
  split; [exact H1|exact H7].
Defined.

(** ** A blob stays retrievable until it is removed *)

(** One request keeps the row of [i] and the content of its file, when it
    is not a DELETE of [i] and its upload, if any, reads a new millisecond. *)
Lemma handle_keeps_blob o env rq w T i row bytes :
  stored_under o T w →
  Database.select_by_id i (rows w) = Some row →
  files w !! (storageDir o ++ [path row]) = Some bytes →
  fault env OpDelete = None →
  (∀ t, upload_tick (env, rq) = Some t → t ∉ T) →
  (∀ param, rq = Delete param → Js.parseInt param ≠ Js.Num i) →
  Database.select_by_id i (rows (snd (handle o env rq w))) = Some row
  ∧ files (snd (handle o env rq w)) !! (storageDir o ++ [path row]) = Some bytes.
Proof.
  intros [Hnd Hrows] Hsel Hfile Hdel Hfresh Hnot.
  pose proof (select_by_id_found _ _ _ Hsel) as [Hrow Hid].
  destruct (Hrows row Hrow) as [(env0 & file0 & Ht & Hp) _].
  destruct rq as [[file|]| |param|param]; simpl.
  - specialize (Hfresh _ eq_refl). split.
    + destruct (post_upload_table o env (Some file) w)
        as [(_ & -> & _)|(f & _ & _ & -> & _)]; [done|].
      by apply select_by_id_app_found.
    + rewrite post_upload_writes_one_path; [done|].
      rewrite Hp, !storage_filename_in_storageDir.
      intros [= Heq]%app_inv_head. apply storage_filename_tick in Heq.
      rewrite Heq in Ht. by apply Hfresh.
  - done.
  - by destruct (get_files_frame env w) as (-> & _ & ->).
  - by destruct (get_blob_frame o env param w) as (-> & _ & ->).
  - destruct (delete_blob_effect o env param w Hdel)
      as [[-> ->]|(j & gone & Hj & Hgone & -> & ->)]; [done|].
    assert (i ≠ j) as Hij by (intros ->; by apply (Hnot param)).
    apply select_by_id_found in Hgone as [Hgone Hidj].
    split; [by rewrite select_by_id_filter_other|].
    destruct (Hrows gone Hgone) as [(env1 & file1 & _ & Hp1) _].
    rewrite Hp1, storage_filename_in_storageDir, <-Hp1.
    rewrite lookup_delete_ne; [done|].
    intros [= Heq]%app_inv_head.
    assert (gone = row) as -> by by apply (NoDup_map_eq path (rows w)).
    congruence.
Qed.

Lemma serve_keeps_blob o l : ∀ T w i row bytes,
  stored_under o T w →
  Database.select_by_id i (rows w) = Some row →
  files w !! (storageDir o ++ [path row]) = Some bytes →
  NoDup (upload_ticks l) →
  (∀ t, t ∈ upload_ticks l → t ∉ T) →
  Forall (λ er, fault er.1 OpDelete = None) l →
  Forall (λ er, ∀ param, er.2 = Delete param → Js.parseInt param ≠ Js.Num i) l →
  Database.select_by_id i (rows (snd (serve o l w))) = Some row
  ∧ files (snd (serve o l w)) !! (storageDir o ++ [path row]) = Some bytes.
Proof.
  induction l as [|[env rq] l IH];
    intros T w i row bytes Hinv Hsel Hfile Hnd Hfresh Hdel Hnot; simpl; [done|].
  apply Forall_cons in Hdel as [Hd Hdel]. simpl in Hd.
  apply Forall_cons in Hnot as [Hn Hnot]. simpl in Hn.
  unfold upload_ticks in *. simpl in Hnd, Hfresh.
  assert (∀ t, upload_tick (env, rq) = Some t → t ∉ T) as Hfresh1.
  { intros t Ht. apply Hfresh. rewrite Ht. by left. }
  pose proof (handle_stored_under o env rq w T Hinv (λ _, Hd) Hfresh1) as H1.
  pose proof (handle_keeps_blob o env rq w T i row bytes Hinv Hsel Hfile Hd
    Hfresh1 Hn) as [Hsel1 Hfile1].
  unfold mbind, M_bind, mret, M_ret.
  destruct (handle o env rq w) as [r w1]. simpl in H1, Hsel1, Hfile1.
  assert (Database.select_by_id i (rows (snd (serve o l w1))) = Some row
    ∧ files (snd (serve o l w1)) !! (storageDir o ++ [path row]) = Some bytes)
    as Hgoal; [|by destruct (serve o l w1)].
  destruct (upload_tick (env, rq)) as [t|] eqn:Ht; simpl in *.
  - apply NoDup_cons in Hnd as [Hnew Hnd].
    apply (IH (t :: T)); try done.
    intros t' Ht' [->|Hin]%elem_of_cons; [done|].
    apply (Hfresh t'); [by right|done].
  - by apply (IH T).
Qed.

(** X18. On a fresh service, in a run where no two filename callbacks
    read the same millisecond and no DELETE statement fails: once an
    upload has been answered with an id, and as long as no DELETE request
    names that id, a GET /blob/id that meets no I/O error answers the
    uploaded bytes, whatever was uploaded, removed or refused in between. *)
Theorem uploaded_blob_survives_until_it_is_removed
    (o : BlobStorageOptions) (before after : list (Env * Request))
    (env env' : Env) (file : Part) (i : Z) :
  let w1 := snd (serve o before init) in
  let w2 := snd (BlobStorage.post_upload o env (Some file) w1) in
  let w3 := snd (serve o after w2) in
  NoDup (upload_ticks (before ++ (env, Upload (Some file)) :: after)) →
  Forall (λ er, fault er.1 OpDelete = None) (before ++ after) →
  Forall (λ er, ∀ param, er.2 = Delete param → Js.parseInt param ≠ Js.Num i)
    after →
  fst (BlobStorage.post_upload o env (Some file) w1) = Created i →
  fault env' OpGet = None → fault env' OpAccess = None →
  fault env' OpSendFile = None →
  fst (BlobStorage.get_blob o env' (Js.Number_toString i) w3)
  = {| status := 200;
       body := FileResponse
                 (Fs.mime_contentType (Js.extname (originalname file)))
                 (content file) |}.
Proof.
  intros w1 w2 w3 Hnd Hdel Hnot Hup Hg Ha Hs.
  apply Forall_app in Hdel as [Hdel1 Hdel2].
  unfold upload_ticks in Hnd. rewrite omap_app in Hnd. simpl in Hnd.
  apply NoDup_app in Hnd as (Hnd1 & Hdisj & Hnd2).
  apply NoDup_cons in Hnd2 as [Hnew Hnd2].
  destruct (serve_stored_under o before [] init) as (T & Hsub & Hinv1);
    [|done| |done|].
  { split; [constructor|]. by intros row ?%elem_of_nil. }
  { intros t _ ?%elem_of_nil. done. }
  fold w1 in Hinv1.
  assert (date_now env ∉ T) as HenvT.
  { intros Hin. destruct (Hsub _ Hin) as [?%elem_of_nil|Hin1]; [done|].
    apply (Hdisj _ Hin1). by left. }
  pose proof (handle_stored_under o env (Upload (Some file)) w1 T Hinv1
    ltac:(done)) as Hinv2.
  simpl in Hinv2. fold w2 in Hinv2.
  specialize (Hinv2 ltac:(by intros t [= <-])).
  destruct (post_upload_created o env file w1 i Hup) as (Hi & Hrows & Hfiles).
  fold w2 in Hrows, Hfiles.
  destruct (next_rowid_fresh w1) as [Hpos Hfresh]. rewrite <-Hi in Hpos, Hfresh.
  set (row := {| id := i; original_name := originalname file;
                 mime_type := mimetype file;
                 path := BlobStorage.storage_filename env file;
                 upload_timestamp := Js.toISOString (new_date env) |}).
  pose proof (select_by_id_last i (rows w1) row Hfresh eq_refl) as Hsel.
  fold row in Hrows. rewrite <-Hrows in Hsel.
  assert (files w2 !! (storageDir o ++ [path row]) = Some (content file))
    as Hfile.
  { rewrite Hfiles, storage_filename_in_storageDir. apply lookup_insert_eq. }
  destruct (serve_keeps_blob o after (date_now env :: T) w2 i row (content file)
    Hinv2 Hsel Hfile Hnd2) as [Hsel3 Hfile3]; [|done|done|].
  { intros t Ht [->|Hin]%elem_of_cons; [done|].
    destruct (Hsub _ Hin) as [?%elem_of_nil|Hin1]; [done|].
    apply (Hdisj _ Hin1). by right. }
  fold w3 in Hsel3, Hfile3. clearbody w3. clear Hup.
  pose proof (parseInt_Number_toString i Hpos) as Hparse.
  unfold BlobStorage.get_blob.
  rewrite (valid_id_num _ _ Hparse Hpos), Hparse.
  subst row. cbn [path] in Hfile3. clearbody w1 w2.
  unfold BlobStorage.json, Database.getBlob, Fs.access, Fs.sendFile,
    log, modify, gets, mbind, M_bind, mret, M_ret. simpl.
  rewrite Hg. simpl. rewrite Hsel3. simpl. rewrite Ha. simpl.
  rewrite storage_filename_in_storageDir, Hfile3. simpl.
  rewrite storage_filename_not_hidden, Hs. simpl.
  by rewrite Hfile3, storage_filename_extname.
Qed.

Lemma uploaded_blob_survives_witness :
  fst (BlobStorage.get_blob defaults (at_time 9) (Js.Number_toString 2)
         (snd (serve defaults
                 [ (at_time 1700000000002, Delete "1");
                   (at_time 1700000000003, Upload (Some passwd)) ]
                 (snd (BlobStorage.post_upload defaults (at_time 1700000000001)
                         (Some (a_txt "two" "application/json"))
                         (snd (serve defaults
                                 [ (at_time 1700000000000,
                                    Upload (Some (a_txt "one" "text/plain"))) ]
                                 init)))))))
  = {| status := 200;
       body := FileResponse "text/plain; charset=utf-8" (bytes_of "two") |}.
Proof.
  apply (uploaded_blob_survives_until_it_is_removed defaults
    [ (at_time 1700000000000, Upload (Some (a_txt "one" "text/plain"))) ]
    [ (at_time 1700000000002, Delete "1");
      (at_time 1700000000003, Upload (Some passwd)) ]
    (at_time 1700000000001) (at_time 9) (a_txt "two" "application/json") 2);
    try reflexivity.
  - vm_compute.
    repeat (apply NoDup_cons_2;
      [by intros ?%list_elem_of_In; simpl in *; intuition discriminate|]).
    apply NoDup_nil_2.
  - repeat (apply Forall_cons_2; [reflexivity|]). apply Forall_nil_2.
  - repeat (apply Forall_cons_2; [by intros param [= <-]|]). apply Forall_nil_2.
Defined.

(** ** What a download can contain *)

(** X19. GET /blob/:id never answers a content that is not the file of
    the row: a 200 answer carries exactly the bytes found at
    [storageDir/row.path] for the row the id selects, typed by the
    extension of that stored name. *)
Theorem download_is_the_file_of_the_row
    (o : BlobStorageOptions) (env : Env) (param : string) (w : World)
    (ty : string) (bytes : list byte) :
  fst (BlobStorage.get_blob o env param w)
    = {| status := 200; body := FileResponse ty bytes |} →
  ∃ i row,
    Js.parseInt param = Js.Num i ∧ 0 < i
    ∧ Database.select_by_id i (rows w) = Some row
    ∧ files w !! Js.path_join (storageDir o) (path row) = Some bytes
    ∧ ty = Fs.mime_contentType (Js.extname (path row)).
Proof.
  unfold BlobStorage.get_blob.
  destruct (Js.parseInt param) as [|i] eqn:Hp; [done|].
  unfold BlobStorage.invalid_id. simpl. rewrite orb_false_r.
  destruct (i <=? 0) eqn:Hi; [done|]. apply Z.leb_gt in Hi.
  run. destruct (fault env OpGet); simpl; [done|].
  destruct (Database.select_by_id i (rows w)) as [row|] eqn:Hsel; simpl; [|done].
  destruct (fault env OpAccess); simpl; [done|].
  destruct (files w !! _) as [b|] eqn:Hb; simpl; [|done].
  destruct (existsb _ _); simpl; [done|].
  destruct (fault env OpSendFile); simpl; [done|].
  rewrite Hb. simpl. intros [= <- <-]. by exists i, row.
Qed.

Lemma download_witness :
  ∃ i row,
    Js.parseInt "2" = Js.Num i ∧ 0 < i
    ∧ Database.select_by_id i (rows two_blobs) = Some row
    ∧ files two_blobs !! Js.path_join (storageDir defaults) (path row)
      = Some (bytes_of "image")
    ∧ "image/png" = Fs.mime_contentType (Js.extname (path row)).
Proof.
  exact (download_is_the_file_of_the_row defaults (at_time 0) "2" two_blobs
           "image/png" (bytes_of "image") eq_refl).
Defined.
